(** * ThinNav backend: the website endpoints of [backend/app/websites.py]

  A shallow embedding of the icon resolution pipeline ([get_icon],
  [generate_letter_icon], [save_icon_image]), of the description fetcher
  and of the catalogue handlers ([create_website], [read_websites],
  [update_website], [delete_website]), followed by the properties of the
  specification that concern them.

  Python text is modelled by [string]; the character classes used by the
  code ([isdigit], [upper], [lower], [strip]) are given on ASCII, which
  is where URLs live.  Exceptions are values of [exn] carried by
  [result]; the handlers thread the persistent store and the icon
  directory explicitly; what the code prints is left out. *)

From Stdlib Require Import String Ascii List ZArith Lia Bool Sorted Permutation.
Import ListNotations.

Open Scope string_scope.
Open Scope Z_scope.

(** ** Python values, exceptions and string methods *)

Module Py.

(** The exception classes that can reach the handlers.  All of them derive
    from [Exception], so a blanket [except Exception] catches each. *)
Inductive exn : Type :=
| TypeError (msg : string)
| AttributeError (msg : string)
| IndexError
| ValueError (msg : string)
| OSError (path : string)
| TransportError
| HTTPStatusError (status : Z)
| ParserError
| RequestValidationError (param : string)
| HTTPException (status_code : Z) (detail : string).

Inductive result (A : Type) : Type :=
| Ok (a : A)
| Raise (e : exn).
Arguments Ok {A} a.
Arguments Raise {A} e.

Definition bind {A B} (r : result A) (k : A -> result B) : result B :=
  match r with
  | Ok a => k a
  | Raise e => Raise e
  end.

(** [try: body / except Exception: handler] *)
Definition try_except {A} (body : result A) (handler : exn -> A) : A :=
  match body with
  | Ok a => a
  | Raise e => handler e
  end.

(** The dynamically typed values that flow through [create_website]. *)
Inductive pyval : Type :=
| PyNone
| PyBool (b : bool)
| PyStr (s : string)
| PyDict (items : list (string * string)).

(** Truth value testing, as [if x:] and [not x] perform it. *)
Definition truthy (v : pyval) : bool :=
  match v with
  | PyNone => false
  | PyBool b => b
  | PyStr s => negb (s =? "")%string
  | PyDict items => match items with [] => false | _ => true end
  end.

(** *** Characters *)

Definition code (c : ascii) : nat := nat_of_ascii c.

Definition is_digit (c : ascii) : bool :=
  (48 <=? code c)%nat && (code c <=? 57)%nat.
Definition is_lower (c : ascii) : bool :=
  (97 <=? code c)%nat && (code c <=? 122)%nat.
Definition is_upper (c : ascii) : bool :=
  (65 <=? code c)%nat && (code c <=? 90)%nat.
Definition is_alpha (c : ascii) : bool := is_lower c || is_upper c.

(** [str.isspace] on ASCII: tab, line feed, vertical tab, form feed,
    carriage return, the four separators 28..31 and the space. *)
Definition is_space (c : ascii) : bool :=
  ((9 <=? code c)%nat && (code c <=? 13)%nat)
  || ((28 <=? code c)%nat && (code c <=? 32)%nat).

Definition upper_char (c : ascii) : ascii :=
  if is_lower c then ascii_of_nat (code c - 32) else c.
Definition lower_char (c : ascii) : ascii :=
  if is_upper c then ascii_of_nat (code c + 32) else c.

(** *** The [str] methods used by the module *)

Fixpoint map_chars (f : ascii -> ascii) (s : string) : string :=
  match s with
  | EmptyString => EmptyString
  | String c r => String (f c) (map_chars f r)
  end.

Definition upper : string -> string := map_chars upper_char.
Definition lower : string -> string := map_chars lower_char.

Fixpoint all_chars (p : ascii -> bool) (s : string) : bool :=
  match s with
  | EmptyString => true
  | String c r => p c && all_chars p r
  end.

(** [s.isdigit()]: at least one character, and all of them digits. *)
Definition isdigit (s : string) : bool :=
  match s with
  | EmptyString => false
  | _ => all_chars is_digit s
  end.

(** [c in s] for a one-character [c]. *)
Fixpoint contains (c : ascii) (s : string) : bool :=
  match s with
  | EmptyString => false
  | String d r => Ascii.eqb c d || contains c r
  end.

(** [s.replace(old, new)] for a one-character [old]. *)
Fixpoint replace (old : ascii) (new : string) (s : string) : string :=
  match s with
  | EmptyString => EmptyString
  | String c r =>
      if Ascii.eqb c old then new ++ replace old new r
      else String c (replace old new r)
  end.

Definition startswith (s p : string) : bool := String.prefix p s.

Fixpoint endswith (s suffix : string) : bool :=
  (s =? suffix)%string
  || match s with
     | EmptyString => false
     | String _ r => endswith r suffix
     end.

(** [s[0]]: the first character as a string, [IndexError] on [""]. *)
Definition index0 (s : string) : result string :=
  match s with
  | EmptyString => Raise IndexError
  | String c _ => Ok (String c EmptyString)
  end.

(** [s.lstrip(chars)], [s.rstrip(chars)] and [s.strip(chars)], with the
    set of characters given as a predicate. *)
Fixpoint lstrip_by (p : ascii -> bool) (s : string) : string :=
  match s with
  | EmptyString => EmptyString
  | String c r => if p c then lstrip_by p r else s
  end.

Fixpoint rstrip_by (p : ascii -> bool) (s : string) : string :=
  match s with
  | EmptyString => EmptyString
  | String c r =>
      match rstrip_by p r with
      | EmptyString => if p c then EmptyString else String c EmptyString
      | r' => String c r'
      end
  end.

Definition strip (s : string) : string :=
  rstrip_by is_space (lstrip_by is_space s).

(** [s.partition(sep)] for a one-character [sep]: the text before the
    first separator, whether it was found, and the text after it. *)
Fixpoint partition (sep : ascii) (s : string) : string * bool * string :=
  match s with
  | EmptyString => (EmptyString, false, EmptyString)
  | String c r =>
      if Ascii.eqb c sep then (EmptyString, true, r)
      else let '(a, found, b) := partition sep r in (String c a, found, b)
  end.

(** [s.rpartition(sep)]: the same at the last separator; when there is
    none the whole text comes last. *)
Fixpoint rpartition (sep : ascii) (s : string) : string * bool * string :=
  match s with
  | EmptyString => (EmptyString, false, EmptyString)
  | String c r =>
      let '(a, found, b) := rpartition sep r in
      if found then (String c a, true, b)
      else if Ascii.eqb c sep then (EmptyString, true, r)
      else (EmptyString, false, String c b)
  end.

(** [s.split(sep)] for a one-character [sep]; never empty. *)
Fixpoint split (sep : ascii) (s : string) : list string :=
  match s with
  | EmptyString => [EmptyString]
  | String c r =>
      if Ascii.eqb c sep then EmptyString :: split sep r
      else match split sep r with
           | [] => [String c EmptyString]
           | x :: xs => String c x :: xs
           end
  end.

(** [sep.join(parts)] *)
Fixpoint join (sep : string) (parts : list string) : string :=
  match parts with
  | [] => EmptyString
  | [x] => x
  | x :: xs => x ++ sep ++ join sep xs
  end.

Definition nonempty (s : string) : bool := negb (s =? "")%string.

(** [x in l] for a list of strings. *)
Definition mem (x : string) (l : list string) : bool :=
  existsb (String.eqb x) l.

End Py.

Import Py.

Notation "x <- c1 ;; c2" := (Py.bind c1 (fun x => c2))
(at level 61, c1 at next level, right associativity).

(** ** [urllib.parse]: the part of the standard library the module calls

    [urlparse(url).netloc], [urlparse(url).hostname] and [urljoin], after
    CPython's [Lib/urllib/parse.py].  The validation of a bracketed host
    ([ipaddress.ip_address] and the IPvFuture pattern) is taken as the
    predicate [bracketed_host_ok]; the NFKC check of [_checknetloc] only
    concerns text outside ASCII and is left out. *)

Module Urllib.

Definition uses_relative : list string :=
  [""; "ftp"; "http"; "gopher"; "nntp"; "imap"; "wais"; "file"; "https";
   "shttp"; "mms"; "prospero"; "rtsp"; "rtspu"; "sftp"; "svn"; "svn+ssh";
   "ws"; "wss"].

Definition uses_netloc : list string :=
  [""; "ftp"; "http"; "gopher"; "nntp"; "telnet"; "imap"; "wais"; "file";
   "mms"; "https"; "shttp"; "snews"; "prospero"; "rtsp"; "rtspu"; "rsync";
   "svn"; "svn+ssh"; "sftp"; "nfs"; "git"; "git+ssh"; "ws"; "wss"].

Definition uses_params : list string :=
  [""; "ftp"; "hdl"; "prospero"; "http"; "imap"; "https"; "shttp"; "rtsp";
   "rtspu"; "sip"; "sips"; "mms"; "sftp"; "tel"].

Definition is_scheme_char (c : ascii) : bool :=
  is_alpha c || is_digit c
  || Ascii.eqb c "+" || Ascii.eqb c "-" || Ascii.eqb c ".".

(** [_WHATWG_C0_CONTROL_OR_SPACE]: the code points 0 to 32. *)
Definition is_c0_control_or_space (c : ascii) : bool := (code c <=? 32)%nat.

(** [_UNSAFE_URL_BYTES_TO_REMOVE]: tab, carriage return, line feed. *)
Definition remove_unsafe (s : string) : string :=
  replace "010" "" (replace "013" "" (replace "009" "" s)).

Record SplitResult : Type := mkSplit {
  scheme : string;
  netloc : string;
  path : string;
  query : string;
  fragment : string
}.

(** The text up to the first character satisfying [p], and the rest. *)
Fixpoint break_at (p : ascii -> bool) (s : string) : string * string :=
  match s with
  | EmptyString => (EmptyString, EmptyString)
  | String c r =>
      if p c then (EmptyString, s)
      else let '(a, b) := break_at p r in (String c a, b)
  end.

Definition is_netloc_delim (c : ascii) : bool :=
  Ascii.eqb c "/" || Ascii.eqb c "?" || Ascii.eqb c "#".

(** [_splitnetloc(url, 2)] on a [url] that starts with two slashes. *)
Definition _splitnetloc (url : string) : string * string :=
  break_at is_netloc_delim
    match url with
    | String _ (String _ rest) => rest
    | _ => EmptyString
    end.

(** The scheme, when [url] has the shape [scheme:rest]. *)
Definition split_scheme (default : string) (url : string) : string * string :=
  let '(head, found, rest) := partition ":" url in
  match head with
  | String c _ =>
      if found && is_alpha c && all_chars is_scheme_char head
      then (lower head, rest)
      else (default, url)
  | EmptyString => (default, url)
  end.

Section Bracketed.

Variable bracketed_host_ok : string -> bool.

Definition _check_bracketed_host (hostname : string) : result unit :=
  if bracketed_host_ok hostname then Ok tt
  else Raise (ValueError "invalid bracketed host").

Definition _check_bracketed_netloc (netloc : string) : result unit :=
  let '(_, _, hostname_and_port) := rpartition "@" netloc in
  let '(before_bracket, have_open_br, bracketed) :=
    partition "[" hostname_and_port in
  if have_open_br then
    if negb (before_bracket =? "")%string
    then Raise (ValueError "Invalid IPv6 URL")
    else
      let '(hostname, _, port) := partition "]" bracketed in
      if negb (port =? "")%string && negb (startswith port ":")
      then Raise (ValueError "Invalid IPv6 URL")
      else _check_bracketed_host hostname
  else
    let '(hostname, _, _) := partition ":" hostname_and_port in
    _check_bracketed_host hostname.

Definition urlsplit (url : string) (default_scheme : string)
  : result SplitResult :=
  let url := lstrip_by is_c0_control_or_space url in
  let default_scheme :=
    rstrip_by is_c0_control_or_space
      (lstrip_by is_c0_control_or_space default_scheme) in
  let url := remove_unsafe url in
  let default_scheme := remove_unsafe default_scheme in
  let '(scheme, url) := split_scheme default_scheme url in
  nu <-
    (if startswith url "//" then
       let '(netloc, rest) := _splitnetloc url in
       if (contains "[" netloc && negb (contains "]" netloc))
          || (contains "]" netloc && negb (contains "[" netloc))
       then Raise (ValueError "Invalid IPv6 URL")
       else if contains "[" netloc && contains "]" netloc
       then (_ <- _check_bracketed_netloc netloc ;; Ok (netloc, rest))
       else Ok (netloc, rest)
     else Ok (EmptyString, url)) ;;
  let '(netloc, url) := nu in
  let '(url, _, fragment) := partition "#" url in
  let '(url, _, query) := partition "?" url in
  Ok (mkSplit scheme netloc url query fragment).

Record ParseResult : Type := mkParse {
  p_scheme : string;
  p_netloc : string;
  p_path : string;
  p_params : string;
  p_query : string;
  p_fragment : string
}.

(** [_splitparams]: the parameters are those of the last path segment. *)
Definition _splitparams (url : string) : string * string :=
  if contains "/" url then
    let '(dir, _, last_segment) := rpartition "/" url in
    let '(seg, found, params) := partition ";" last_segment in
    if found then (dir ++ "/" ++ seg, params) else (url, EmptyString)
  else
    let '(seg, _, params) := partition ";" url in (seg, params).

Definition urlparse (url : string) (default_scheme : string)
  : result ParseResult :=
  sr <- urlsplit url default_scheme ;;
  let '(url', params) :=
    if mem (scheme sr) uses_params && contains ";" (path sr)
    then _splitparams (path sr)
    else (path sr, EmptyString) in
  Ok (mkParse (scheme sr) (netloc sr) url' params (query sr) (fragment sr)).



Definition urlunsplit (scheme netloc url query fragment : string) : string :=
  let url :=
    if nonempty netloc
       || (nonempty scheme && mem scheme uses_netloc
           && negb (startswith url "//"))
    then
      "//" ++ netloc
      ++ (if nonempty url && negb (startswith url "/") then "/" ++ url
          else url)
    else url in
  let url := if nonempty scheme then scheme ++ ":" ++ url else url in
  let url := if nonempty query then url ++ "?" ++ query else url in
  if nonempty fragment then url ++ "#" ++ fragment else url.

Definition urlunparse (p : ParseResult) : string :=
  let url :=
    if nonempty (p_params p) then p_path p ++ ";" ++ p_params p
    else p_path p in
  urlunsplit (p_scheme p) (p_netloc p) url (p_query p) (p_fragment p).

(** [segments[1:-1] = filter(None, segments[1:-1])] *)
Definition filter_middle (segments : list string) : list string :=
  match segments with
  | [] => []
  | [x] => [x]
  | x :: rest => x :: filter nonempty (removelast rest) ++ [last rest ""]
  end.

(** The loop over [segments] that builds [resolved_path], kept in reverse:
    [..] pops (and is ignored on an empty path), [.] is skipped. *)
Definition resolve_step (resolved_rev : list string) (seg : string)
  : list string :=
  if (seg =? "..")%string then tl resolved_rev
  else if (seg =? ".")%string then resolved_rev
  else seg :: resolved_rev.

Definition resolve_segments (segments : list string) : list string :=
  let resolved := rev (fold_left resolve_step segments []) in
  if mem (last segments "") ["."; ".."] then resolved ++ [""] else resolved.

Definition urljoin (base url : string) : result string :=
  if (base =? "")%string then Ok url
  else if (url =? "")%string then Ok base
  else
    b <- urlparse base "" ;;
    u <- urlparse url (p_scheme b) ;;
    let scheme := p_scheme u in
    if negb (scheme =? p_scheme b)%string || negb (mem scheme uses_relative)
    then Ok url
    else if mem scheme uses_netloc && nonempty (p_netloc u)
    then Ok (urlunparse u)
    else
      let netloc :=
        if mem scheme uses_netloc then p_netloc b else p_netloc u in
      if negb (nonempty (p_path u)) && negb (nonempty (p_params u))
      then
        Ok (urlunparse
              (mkParse scheme netloc (p_path b) (p_params b)
                 (if nonempty (p_query u) then p_query u else p_query b)
                 (p_fragment u)))
      else
        let base_parts := split "/" (p_path b) in
        let base_parts :=
          if nonempty (last base_parts "") then removelast base_parts
          else base_parts in
        let segments :=
          if startswith (p_path u) "/" then split "/" (p_path u)
          else filter_middle (base_parts ++ split "/" (p_path u)) in
        let joined := join "/" (resolve_segments segments) in
        Ok (urlunparse
              (mkParse scheme netloc
                 (if nonempty joined then joined else "/")
                 (p_params u) (p_query u) (p_fragment u))).

End Bracketed.

(** [_hostinfo], first component. *)
Definition _hostinfo (netloc : string) : string :=
  let '(_, _, hostinfo) := rpartition "@" netloc in
  let '(_, have_open_br, bracketed) := partition "[" hostinfo in
  if have_open_br then
    let '(hostname, _, _) := partition "]" bracketed in hostname
  else
    let '(hostname, _, _) := partition ":" hostinfo in hostname.

(** The [hostname] property: [None] for an empty host, otherwise the host
    in lower case with a zone identifier left as it is. *)
Definition hostname (netloc : string) : option string :=
  match _hostinfo netloc with
  | EmptyString => None
  | h =>
      let '(host, percent, zone) := partition "%" h in
      Some (lower host ++ (if percent then "%" else "") ++ zone)
  end.

End Urllib.

(** ** [httpx]: the asynchronous client

    What a request yields is decided by the network, the parameter
    [Transport]; the client itself contributes its configuration and the
    signature of [AsyncClient.get], whose keyword arguments are [params],
    [headers], [cookies], [auth], [follow_redirects], [timeout] and
    [extensions]: as for any Python function without [**kwargs], another
    keyword is a [TypeError] at the call, before anything is sent. *)

Module Httpx.

Record Response : Type := mkResponse {
  status_code : Z;
  text : string
}.

(** The options [AsyncClient(...)] is built with in this module. *)
Record AsyncClient : Type := mkClient {
  follow_redirects : bool;
  verify : bool
}.

Definition Transport : Type :=
  AsyncClient -> list (string * pyval) -> string -> result Response.

Definition get_keywords : list string :=
  ["params"; "headers"; "cookies"; "auth"; "follow_redirects"; "timeout";
   "extensions"].

Definition get (transport : Transport) (client : AsyncClient)
  (url : string) (kwargs : list (string * pyval)) : result Response :=
  match List.find (fun kv => negb (mem (fst kv) get_keywords)) kwargs with
  | Some (k, _) =>
      Raise (TypeError ("AsyncClient.get() got an unexpected keyword argument '"
                        ++ k ++ "'"))
  | None => transport client kwargs url
  end.

Definition is_success (r : Response) : bool :=
  (200 <=? status_code r) && (status_code r <=? 299).

Definition raise_for_status (r : Response) : result unit :=
  if is_success r then Ok tt else Raise (HTTPStatusError (status_code r)).

End Httpx.

(** ** [bs4]: the parsed document

    A document is the list of its tags in document order, which is the
    order [find] visits them in.  An attribute holds one string, or, for
    the attributes HTML defines as lists ([class], [rel] of a link, ...),
    the list of its whitespace-separated tokens. *)

Module Bs4.

Inductive attr_value : Type :=
| Single (s : string)
| Multi (tokens : list string).

Record Tag : Type := mkTag {
  name : string;
  attrs : list (string * attr_value)
}.

Definition Soup : Type := list Tag.

(** [tag.get(key)] *)
Definition get (t : Tag) (key : string) : option attr_value :=
  option_map snd (List.find (fun kv => (fst kv =? key)%string) (attrs t)).

(** A string filter on an attribute: equality for a plain value; for a
    list, some token equals it or the tokens joined by a space do. *)
Definition value_matches (v : attr_value) (wanted : string) : bool :=
  match v with
  | Single s => (s =? wanted)%string
  | Multi tokens => mem wanted tokens || (join " " tokens =? wanted)%string
  end.

Definition tag_matches (tag_name : string) (filters : list (string * string))
  (t : Tag) : bool :=
  (name t =? tag_name)%string
  && forallb (fun f =>
                match get t (fst f) with
                | Some v => value_matches v (snd f)
                | None => false
                end) filters.

(** [soup.find(tag_name, attrs=filters)]: the first matching tag. *)
Definition find (soup : Soup) (tag_name : string)
  (filters : list (string * string)) : option Tag :=
  List.find (tag_matches tag_name filters) soup.

(** Truth value of [tag.get(key)]. *)
Definition attr_truthy (v : option attr_value) : bool :=
  match v with
  | None => false
  | Some (Single s) => negb (s =? "")%string
  | Some (Multi tokens) => match tokens with [] => false | _ => true end
  end.

End Bs4.

(** ** The environment of the handlers

    Everything the module reaches outside itself: the network, the HTML
    parser, the public-suffix lookup of [tldextract], the font file and the
    icon directory. *)

Record Env : Type := mkEnv {
  transport : Httpx.Transport;
  (** [BeautifulSoup(text, "html.parser")] *)
  html_parser : string -> result Bs4.Soup;
  (** the validation of bracketed hosts in [urlsplit] *)
  bracketed_host_ok : string -> bool;
  (** [tldextract.extract(url).domain] *)
  tld_domain : string -> string;
  (** whether [./fonts/Roboto-Regular.ttf] can be loaded *)
  roboto_available : bool;
  (** whether [aiofiles.open(path, "wb")] and the write succeed *)
  icons_writable : string -> bool
}.

Definition urlparse (env : Env) (url : string) : result Urllib.ParseResult :=
  Urllib.urlparse (bracketed_host_ok env) url "".

Definition urljoin (env : Env) (base url : string) : result string :=
  Urllib.urljoin (bracketed_host_ok env) base url.

(** ** Images *)

Inductive Font : Type :=
| TrueType (file : string) (size : Z)
| DefaultFont.

(** What [generate_letter_icon] draws: a 64x64 disc of one colour with one
    letter in white. *)
Record Image : Type := mkImage {
  img_size : Z * Z;
  img_color : Z * Z * Z;
  img_letter : string;
  img_font : Font;
  img_fill : Z * Z * Z
}.

(** The icon directory: the files written so far, latest first. *)
Definition Files : Type := list (string * Image).

(** ** [fetch_website_description] *)

Definition user_agent : string :=
  "Mozilla/5.0 (Windows NT 10.0; Win64; x64) AppleWebKit/537.36 (KHTML, like Gecko) Chrome/91.0.4472.124 Safari/537.36".

Definition fetch_website_description (env : Env) (url : string) : string :=
  let headers := PyDict [("User-Agent", user_agent)] in
  try_except
    (let client := Httpx.mkClient true false in
     response <- Httpx.get (transport env) client url [("headers", headers)] ;;
     _ <- Httpx.raise_for_status response ;;
     soup <- html_parser env (Httpx.text response) ;;
     match Bs4.find soup "meta" [("name", "description")] with
     | Some description_tag =>
         match Bs4.get description_tag "content" with
         | Some (Bs4.Single content) => Ok (strip content)
         | Some (Bs4.Multi _) =>
             Raise (AttributeError "'list' object has no attribute 'strip'")
         | None => Ok (strip "")
         end
     | None => Ok ""
     end)
    (fun _ => "").

(** ** [save_icon_image] *)

(** What a write that does not go through raises: [open] refuses a path
    that holds a NUL with a [ValueError]; every other failure (missing
    directory, permissions, full disk) is an [OSError]. *)
Definition write_error (path : string) : exn :=
  if contains "000" path then ValueError "embedded null byte"
  else OSError path.

(** [icons_writable] tells whether [open] and the write go through, which
    they never do for a path that holds a NUL. *)
Definition save_icon_image (env : Env) (image : Image) (filename : string)
  (files : Files) : result string * Files :=
  let filename := replace ":" "_" filename in
  let path := "./icons/" ++ filename in
  let path := if negb (endswith path ".png") then path ++ ".png" else path in
  if icons_writable env path then (Ok path, (path, image) :: files)
  else (Raise (write_error path), files).

(** ** [get_icon] *)

(** Lines 73 to 89: from the response to the icon reference. *)
Definition icon_of_response (env : Env) (url : string)
  (response : Httpx.Response) : result pyval :=
  soup <- html_parser env (Httpx.text response) ;;
  let link :=
    match Bs4.find soup "link" [("rel", "icon")] with
    | Some l => Some l
    | None => Bs4.find soup "link" [("rel", "shortcut icon")]
    end in
  match link with
  | Some l =>
      if Bs4.attr_truthy (Bs4.get l "href") then
        match Bs4.get l "href" with
        | Some (Bs4.Single icon_url) =>
            icon_url <-
              (if negb (startswith icon_url "http://"
                        || startswith icon_url "https://")
               then urljoin env url icon_url
               else Ok icon_url) ;;
            Ok (PyDict [("icon_url", icon_url)])
        | _ => Raise (AttributeError "'list' object has no attribute 'startswith'")
        end
      else Raise (HTTPException 404 "Icon not found")
  | None => Raise (HTTPException 404 "Icon not found")
  end.

Definition get_icon (env : Env) (url : string) : pyval :=
  try_except
    (let client := Httpx.mkClient true true in
     response <-
       Httpx.get (transport env) client url [("verify", PyBool false)] ;;
     _ <- Httpx.raise_for_status response ;;
     icon_of_response env url response)
    (fun _ => PyNone).

(** ** [generate_letter_icon] *)

(** Lines 98 to 108: the letter to draw. *)
Definition letter_of (env : Env) (url : string) : result string :=
  let domain := tld_domain env url in
  parsed_url <- urlparse env url ;;
  match Urllib.hostname (Urllib.p_netloc parsed_url) with
  | None => Raise (AttributeError "'NoneType' object has no attribute 'replace'")
  | Some hostname =>
      if isdigit (replace "." "" hostname) then
        c <- index0 hostname ;; Ok (upper c)
      else if nonempty domain then
        c <- index0 domain ;; Ok (upper c)
      else Ok "U"
  end.

Definition generate_letter_icon (env : Env) (url : string) : result Image :=
  letter <- letter_of env url ;;
  let font :=
    if roboto_available env then TrueType "./fonts/Roboto-Regular.ttf" 48
    else DefaultFont in
  Ok (mkImage (64, 64) (73, 109, 137) letter font (255, 255, 255)).

(** ** The persistent store *)

Module Models.

(** Modelled from the spec: [models.py] is not part of the sources; the
    columns are those of the data model, and [icon_url] holds whatever
    value the handler assigns to it. *)
Record Website : Type := mkWebsite {
  id : Z;
  name : string;
  url : string;
  icon_url : pyval;
  description : string;
  order : Z;
  category_id : option Z
}.

(** Modelled from the spec: the category entity of [models.py], of which
    only the identifier and the name are read. *)
Record Category : Type := mkCategory {
  cat_id : Z;
  cat_name : string
}.

(** Modelled from the spec: the authenticated principal of [auth.py]. *)
Record Admin : Type := mkAdmin {
  username : string
}.

End Models.

Module Schemas.

Inductive Field : Type := FName | FUrl | FOrder | FCategoryId.

Definition field_eqb (a b : Field) : bool :=
  match a, b with
  | FName, FName | FUrl, FUrl | FOrder, FOrder | FCategoryId, FCategoryId =>
      true
  | _, _ => false
  end.

(** Modelled from the spec: the request body [{name, url, order,
    category_id}] of [schemas.py], with the set of fields the request
    supplied, which is what [model_dump(exclude_unset=True)] keeps. *)
Record WebsiteCreate : Type := mkWebsiteCreate {
  name : string;
  url : string;
  order : Z;
  category_id : option Z;
  fields_set : list Field
}.

(** Modelled from the spec: the composed record of [schemas.py]. *)
Record Website : Type := mkWebsite {
  w_id : Z;
  w_name : string;
  w_icon_url : pyval;
  w_description : string;
  w_order : Z;
  w_url : string;
  w_category_id : option Z;
  w_category_name : option string
}.

(** Modelled from the spec: the listing result [{data, total}]. *)
Record PaginatedWebsites : Type := mkPaginated {
  data : list Website;
  total : Z
}.

End Schemas.

(** The database session together with the icon directory. *)
Record Store : Type := mkStore {
  websites : list Models.Website;
  categories : list Models.Category;
  next_id : Z;
  files : Files
}.

(** [db.get(models.Website, website_id)] *)
Definition db_get (st : Store) (website_id : Z) : option Models.Website :=
  List.find (fun w => Models.id w =? website_id) (websites st).

(** [select(Category.name).where(Category.id == category_id)], [.scalar()] *)
Definition category_name_of (st : Store) (category_id : option Z)
  : option string :=
  match category_id with
  | None => None
  | Some k =>
      option_map Models.cat_name
        (List.find (fun c => Models.cat_id c =? k) (categories st))
  end.

(** The left outer join of the websites with the categories on
    [Website.category_id == Category.id]. *)
Definition outer_join (ws : list Models.Website) (cs : list Models.Category)
  : list (Models.Website * option string) :=
  flat_map
    (fun w =>
       match
         filter (fun c =>
                   match Models.category_id w with
                   | Some k => Models.cat_id c =? k
                   | None => false
                   end) cs
       with
       | [] => [(w, None)]
       | matched => map (fun c => (w, Some (Models.cat_name c))) matched
       end) ws.

(** [ORDER BY website.order]: ascending; rows with equal keys are kept in
    the order the join produced them. *)
Fixpoint insert_row (x : Models.Website * option string)
  (l : list (Models.Website * option string))
  : list (Models.Website * option string) :=
  match l with
  | [] => [x]
  | y :: r =>
      if Models.order (fst x) <=? Models.order (fst y) then x :: l
      else y :: insert_row x r
  end.

Definition order_by (l : list (Models.Website * option string))
  : list (Models.Website * option string) :=
  fold_right insert_row [] l.

(** [OFFSET n] and [LIMIT n] *)
Definition offset (n : Z) {A} (l : list A) : list A := skipn (Z.to_nat n) l.
Definition limit (n : Z) {A} (l : list A) : list A := firstn (Z.to_nat n) l.

(** [x or d] for an optional integer. *)
Definition or_default (x : option Z) (d : Z) : Z :=
  match x with
  | Some v => if v =? 0 then d else v
  | None => d
  end.

Definition compose (row : Models.Website * option string) : Schemas.Website :=
  let '(website, category_name) := row in
  Schemas.mkWebsite (Models.id website) (Models.name website)
    (Models.icon_url website) (Models.description website)
    (Models.order website) (Models.url website)
    (Models.category_id website) category_name.

(** ** [create_website] *)

Definition with_files (st : Store) (fs : Files) : Store :=
  mkStore (websites st) (categories st) (next_id st) fs.

(** Lines 157 to 163: the icon reference stored with the website. *)
Definition resolve_icon (env : Env) (url : string) (fs : Files)
  : result pyval * Files :=
  let icon_url := get_icon env url in
  if negb (truthy icon_url) then
    match generate_letter_icon env url with
    | Raise e => (Raise e, fs)
    | Ok default_icon =>
        match urlparse env url with
        | Raise e => (Raise e, fs)
        | Ok parsed =>
            let filename := Urllib.p_netloc parsed ++ "_default.png" in
            match save_icon_image env default_icon filename fs with
            | (Ok path, fs') => (Ok (PyStr path), fs')
            | (Raise e, fs') => (Raise e, fs')
            end
        end
    end
  else (Ok icon_url, fs).

Definition create_website (env : Env) (website : Schemas.WebsiteCreate)
  (current_user : Models.Admin) (st : Store) : result Schemas.Website * Store :=
  let url := Schemas.url website in
  match resolve_icon env url (files st) with
  | (Raise e, fs) => (Raise e, with_files st fs)
  | (Ok icon_url, fs) =>
      let description := fetch_website_description env url in
      let db_website :=
        Models.mkWebsite (next_id st) (Schemas.name website) url icon_url
          description (Schemas.order website) (Schemas.category_id website) in
      let st' :=
        mkStore (websites st ++ [db_website]) (categories st)
          (next_id st + 1) fs in
      let category_name := category_name_of st' (Models.category_id db_website) in
      (Ok (compose (db_website, category_name)), st')
  end.

(** ** [read_websites] *)

Definition read_websites (st : Store) (skip limit_ : option Z)
  (all_data : option bool) : result Schemas.PaginatedWebsites :=
  if match skip with Some s => s <? 0 | None => false end
  then Raise (RequestValidationError "skip")
  else if match limit_ with Some l => l <? 1 | None => false end
  then Raise (RequestValidationError "limit")
  else if match all_data with Some b => b | None => false end then
    let rows := order_by (outer_join (websites st) (categories st)) in
    let response_data := map compose rows in
    let total := Z.of_nat (List.length response_data) in
    Ok (Schemas.mkPaginated response_data total)
  else
    let total := Z.of_nat (List.length (websites st)) in
    let rows :=
      limit (or_default limit_ 10)
        (offset (or_default skip 0)
           (order_by (outer_join (websites st) (categories st)))) in
    let response_data := map compose rows in
    Ok (Schemas.mkPaginated response_data total).

(** ** [update_website] and [delete_website] *)

(** [website.model_dump(exclude_unset=True)]: the supplied fields. *)
Definition model_dump_exclude_unset (website : Schemas.WebsiteCreate)
  : list Schemas.Field :=
  filter (fun f => existsb (Schemas.field_eqb f) (Schemas.fields_set website))
    [Schemas.FName; Schemas.FUrl; Schemas.FOrder; Schemas.FCategoryId].

(** [setattr(db_website, key, value)] *)
Definition setattr (website : Schemas.WebsiteCreate)
  (db_website : Models.Website) (key : Schemas.Field) : Models.Website :=
  let w := db_website in
  match key with
  | Schemas.FName =>
      Models.mkWebsite (Models.id w) (Schemas.name website) (Models.url w)
        (Models.icon_url w) (Models.description w) (Models.order w)
        (Models.category_id w)
  | Schemas.FUrl =>
      Models.mkWebsite (Models.id w) (Models.name w) (Schemas.url website)
        (Models.icon_url w) (Models.description w) (Models.order w)
        (Models.category_id w)
  | Schemas.FOrder =>
      Models.mkWebsite (Models.id w) (Models.name w) (Models.url w)
        (Models.icon_url w) (Models.description w) (Schemas.order website)
        (Models.category_id w)
  | Schemas.FCategoryId =>
      Models.mkWebsite (Models.id w) (Models.name w) (Models.url w)
        (Models.icon_url w) (Models.description w) (Models.order w)
        (Schemas.category_id website)
  end.

(** The row [website_id] replaced by [w], as the commit writes it. *)
Definition store_row (w : Models.Website) (ws : list Models.Website)
  : list Models.Website :=
  map (fun r => if Models.id r =? Models.id w then w else r) ws.

Definition update_website (website_id : Z) (website : Schemas.WebsiteCreate)
  (current_user : Models.Admin) (st : Store) : result Schemas.Website * Store :=
  match db_get st website_id with
  | None => (Raise (HTTPException 404 "Website not found"), st)
  | Some db_website =>
      let db_website :=
        fold_left (setattr website) (model_dump_exclude_unset website)
          db_website in
      let st' :=
        mkStore (store_row db_website (websites st)) (categories st)
          (next_id st) (files st) in
      let category_name := category_name_of st' (Models.category_id db_website) in
      (Ok (compose (db_website, category_name)), st')
  end.

(** The 204 response carries no body. *)
Definition delete_website (website_id : Z) (current_user : Models.Admin)
  (st : Store) : result unit * Store :=
  match db_get st website_id with
  | None => (Raise (HTTPException 404 "Website not found"), st)
  | Some db_website =>
      (Ok tt,
       mkStore
         (filter (fun r => negb (Models.id r =? Models.id db_website))
            (websites st))
         (categories st) (next_id st) (files st))
  end.

(** ** Vocabulary of the specification *)

(** The path of the fallback icon of a network location: the icon
    directory, the location with [:] replaced by [_], the suffix. *)
Definition default_icon_path (netloc : string) : string :=
  "./icons/" ++ replace ":" "_" netloc ++ "_default.png".

(** A host that reads as a dotted-decimal address: with the dots removed,
    what is left is digits. *)
Definition is_ip_host (host : string) : bool :=
  isdigit (replace "." "" host).

(** The first character of a text, as a text. *)
Definition first_char (s : string) : string :=
  match s with
  | String c _ => String c EmptyString
  | EmptyString => EmptyString
  end.

(** Paging parameters that pass the validation of the query. *)
Definition valid_skip (skip : option Z) : Prop :=
  match skip with Some s => 0 <= s | None => True end.

Definition valid_limit (limit_ : option Z) : Prop :=
  match limit_ with Some l => 1 <= l | None => True end.

(** The value of an optional parameter, with its default. *)
Definition default_to (x : option Z) (d : Z) : Z :=
  match x with Some v => v | None => d end.

(** The ranks of a listing, in the order it is returned. *)
Definition orders (l : list Schemas.Website) : list Z :=
  map Schemas.w_order l.

(** One joined row ranks no later than another. *)
Definition row_le (a b : Models.Website * option string) : Prop :=
  Models.order (fst a) <= Models.order (fst b).

(** Whether the request supplied a field. *)
Definition supplied (website : Schemas.WebsiteCreate) (f : Schemas.Field)
  : bool :=
  existsb (Schemas.field_eqb f) (Schemas.fields_set website).

(** Identifiers are primary keys: no two rows of a table share one. *)
Definition unique_ids (st : Store) : Prop :=
  NoDup (map Models.id (websites st)).

Definition unique_categories (st : Store) : Prop :=
  NoDup (map Models.cat_id (categories st)).

(** The same libraries, font and icon directory on another network and
    with another parser. *)
Definition with_network (env : Env) (t : Httpx.Transport)
  (parser : string -> result Bs4.Soup) : Env :=
  mkEnv t parser (bracketed_host_ok env) (tld_domain env)
    (roboto_available env) (icons_writable env).

(** The listing of everything, as [all_data] returns it. *)
Definition listing (st : Store) : list Schemas.Website :=
  map compose (order_by (outer_join (websites st) (categories st))).

(** The rank of a joined row, and a store in which no two joined rows
    have the same rank: [ORDER BY] then leaves the engine no choice. *)
Definition rank (row : Models.Website * option string) : Z :=
  Models.order (fst row).

Definition distinct_ranks (st : Store) : Prop :=
  NoDup (map rank (outer_join (websites st) (categories st))).

(** The fallback path as the specification words it: the icon directory,
    the host of the URL with [:] replaced by [_], the suffix. *)
Definition host_icon_path (host : string) : string :=
  "./icons/" ++ replace ":" "_" host ++ "_default.png".

(** ** Sample environments

    A site [https://a.com/page] whose page declares an icon and a
    description, and a network on which nothing can be reached. *)

Definition page_a : string :=
  "<html><head><meta name='description' content='  A site  '><link rel='icon' href='/f.ico'></head></html>".

Definition soup_a : Bs4.Soup :=
  [Bs4.mkTag "html" [];
   Bs4.mkTag "head" [];
   Bs4.mkTag "meta"
     [("name", Bs4.Single "description"); ("content", Bs4.Single "  A site  ")];
   Bs4.mkTag "link"
     [("rel", Bs4.Multi ["icon"]); ("href", Bs4.Single "/f.ico")]].

(** The registrable labels [tldextract] reports for the URLs used below. *)
Definition sample_domains (url : string) : string :=
  if (url =? "https://a.com/page")%string then "a"
  else if (url =? "example.com")%string then "example"
  else if (url =? "http://192.168.1.1:8000/x")%string then "192.168.1.1"
  else "".

Definition site_a : Env :=
  mkEnv
    (fun _ _ url =>
       if (url =? "https://a.com/page")%string
       then Ok (Httpx.mkResponse 200 page_a)
       else Raise TransportError)
    (fun text => if (text =? page_a)%string then Ok soup_a else Ok [])
    (fun _ => false)
    sample_domains
    true
    (fun _ => true).

Definition offline : Env :=
  mkEnv
    (fun _ _ _ => Raise TransportError)
    (fun _ => Ok [])
    (fun _ => false)
    sample_domains
    false
    (fun _ => true).

Definition admin : Models.Admin := Models.mkAdmin "admin".

Definition empty_store : Store := mkStore [] [] 1 [].

(** A catalogue of 25 websites, ranked in the reverse of their creation,
    in one category. *)
Definition site_row (i : nat) : Models.Website :=
  Models.mkWebsite (Z.of_nat i) "site" "https://a.com/page"
    (PyStr "./icons/a.com_default.png") "" (Z.of_nat (30 - i)) (Some 1).

Definition store_25 : Store :=
  mkStore (map site_row (seq 1 25)) [Models.mkCategory 1 "tools"] 26 [].

Definition store_2 : Store :=
  mkStore [site_row 1; site_row 2] [Models.mkCategory 1 "tools"] 3 [].

(** A request that supplies a name and nothing else. *)
Definition rename_only : Schemas.WebsiteCreate :=
  Schemas.mkWebsiteCreate "Renamed" "" 0 None [Schemas.FName].

(** An icon directory that cannot be written to. *)
Definition read_only_disk : Env :=
  mkEnv
    (fun _ _ _ => Raise TransportError)
    (fun _ => Ok [])
    (fun _ => false)
    sample_domains
    false
    (fun _ => false).

Definition new_example : Schemas.WebsiteCreate :=
  Schemas.mkWebsiteCreate "Example" "example.com" 2 None
    [Schemas.FName; Schemas.FUrl; Schemas.FOrder].

Definition new_site_a : Schemas.WebsiteCreate :=
  Schemas.mkWebsiteCreate "A" "https://a.com/page" 1 None
    [Schemas.FName; Schemas.FUrl; Schemas.FOrder].

(** * Properties *)

(** ** String facts *)

Lemma append_assoc (a b c : string) : ((a ++ b) ++ c = a ++ (b ++ c))%string.
Proof. induction a as [|x a IH]; simpl; [reflexivity | now rewrite IH]. Qed.

Lemma replace_app (old : ascii) (new a b : string) :
  replace old new (a ++ b) = replace old new a ++ replace old new b.
Proof.
  induction a as [|c a IH]; simpl; [reflexivity|].
  destruct (Ascii.eqb c old); simpl; rewrite IH.
  - now rewrite append_assoc.
  - reflexivity.
Qed.

Lemma contains_app (c : ascii) (a b : string) :
  contains c (a ++ b) = contains c a || contains c b.
Proof.
  induction a as [|x a IH]; simpl; [reflexivity|].
  now rewrite IH, orb_assoc.
Qed.

Lemma contains_replace (old : ascii) (new s : string) :
  contains old new = false -> contains old (replace old new s) = false.
Proof.
  intros Hnew. induction s as [|c s IH]; simpl; [reflexivity|].
  destruct (Ascii.eqb c old) eqn:E.
  - now rewrite contains_app, Hnew, IH.
  - simpl. rewrite IH, orb_false_r. now rewrite Ascii.eqb_sym.
Qed.

Lemma endswith_refl (s : string) : endswith s s = true.
Proof. destruct s; simpl; now rewrite ?String.eqb_refl, ?Ascii.eqb_refl. Qed.

Lemma endswith_app (a b : string) : endswith (a ++ b) b = true.
Proof.
  induction a as [|x a IH]; simpl.
  - apply endswith_refl.
  - rewrite IH. apply orb_true_r.
Qed.

Lemma startswith_app (p s : string) : startswith (p ++ s) p = true.
Proof.
  unfold startswith. induction p as [|x p IH]; simpl.
  - now destruct s.
  - destruct (ascii_dec x x); [exact IH | contradiction].
Qed.

Lemma upper_digit (c : ascii) : is_digit c = true -> upper_char c = c.
Proof.
  unfold upper_char, is_digit, is_lower. intros H.
  apply andb_true_iff in H as [_ H]. apply Nat.leb_le in H.
  destruct (97 <=? code c)%nat eqn:E; [|reflexivity].
  apply Nat.leb_le in E. lia.
Qed.

Lemma append_empty_r (s : string) : (s ++ "")%string = s.
Proof. induction s as [|c s IH]; simpl; [reflexivity | now rewrite IH]. Qed.

Lemma partition_absent (sep : ascii) (s : string) :
  contains sep s = false -> partition sep s = (s, false, "").
Proof.
  induction s as [|c s IH]; simpl; [reflexivity|].
  intros H. apply orb_false_iff in H as [Hc Hs].
  rewrite Ascii.eqb_sym, Hc, (IH Hs). reflexivity.
Qed.

Lemma rpartition_absent (sep : ascii) (s : string) :
  contains sep s = false -> rpartition sep s = ("", false, s).
Proof.
  induction s as [|c s IH]; simpl; [reflexivity|].
  intros H. apply orb_false_iff in H as [Hc Hs].
  rewrite (IH Hs), Ascii.eqb_sym, Hc. reflexivity.
Qed.

Lemma replace_absent (old : ascii) (new s : string) :
  contains old s = false -> replace old new s = s.
Proof.
  induction s as [|c s IH]; simpl; [reflexivity|].
  intros H. apply orb_false_iff in H as [Hc Hs].
  rewrite Ascii.eqb_sym, Hc, (IH Hs). reflexivity.
Qed.

(** A network location without user information, port, brackets or zone
    is the host itself, up to letter case. *)
Lemma hostname_plain (netloc host : string) :
  contains "@" netloc = false -> contains "[" netloc = false ->
  contains ":" netloc = false -> contains "%" netloc = false ->
  Urllib.hostname netloc = Some host -> host = lower netloc.
Proof.
  intros Hat Hbr Hco Hpc. unfold Urllib.hostname, Urllib._hostinfo.
  rewrite (rpartition_absent _ _ Hat), (partition_absent _ _ Hbr),
    (partition_absent _ _ Hco).
  destruct netloc as [|c n]; [discriminate|].
  rewrite (partition_absent _ _ Hpc).
  intros H. injection H as <-. now rewrite !append_empty_r.
Qed.

Lemma hostname_not_empty (netloc : string) :
  Urllib.hostname netloc <> Some "".
Proof.
  unfold Urllib.hostname.
  destruct (Urllib._hostinfo netloc) as [|c h]; [discriminate|].
  destruct (partition "%" (String c h)) as [[host percent] zone] eqn:E.
  simpl in E. destruct (Ascii.eqb c "%") eqn:Ec.
  - injection E as <- <- <-. discriminate.
  - destruct (partition "%" h) as [[a f] b]. injection E as <- <- <-.
    discriminate.
Qed.

(** ** The request of [get_icon]

    [get_icon] hands [verify=False] to [client.get], which has no such
    parameter (the description fetcher gives it to the client's
    constructor instead): the call raises before anything is sent, the
    blanket handler answers [None], and this on every URL and network. *)

Lemma get_rejects_verify (t : Httpx.Transport) (client : Httpx.AsyncClient)
  (url : string) (v : pyval) :
  exists msg, Httpx.get t client url [("verify", v)] = Raise (TypeError msg).
Proof. eexists. reflexivity. Qed.

Lemma get_icon_none (env : Env) (url : string) : get_icon env url = PyNone.
Proof. reflexivity. Qed.

Lemma save_icon_image_path env image netloc fs :
  icons_writable env (default_icon_path netloc) = true ->
  save_icon_image env image (netloc ++ "_default.png") fs
  = (Ok (default_icon_path netloc),
     (default_icon_path netloc, image) :: fs).
Proof.
  intros Hw. unfold save_icon_image.
  rewrite replace_app.
  change (replace ":" "_" "_default.png") with "_default.png".
  replace (endswith ("./icons/" ++ replace ":" "_" netloc ++ "_default.png")
             ".png") with true.
  - simpl negb. cbv iota. fold (default_icon_path netloc). now rewrite Hw.
  - symmetry.
    change "_default.png" with ("_default" ++ ".png").
    rewrite <- !append_assoc. apply endswith_app.
Qed.

(** With a host in the URL and a writable icon directory the resolution
    ends with the fallback path, and writes the rendered letter there. *)
Lemma resolve_icon_fallback env url parsed h fs :
  urlparse env url = Ok parsed ->
  Urllib.hostname (Urllib.p_netloc parsed) = Some h ->
  icons_writable env (default_icon_path (Urllib.p_netloc parsed)) = true ->
  exists image,
    generate_letter_icon env url = Ok image
    /\ resolve_icon env url fs
       = (Ok (PyStr (default_icon_path (Urllib.p_netloc parsed))),
          (default_icon_path (Urllib.p_netloc parsed), image) :: fs).
Proof.
  intros Hp Hh Hw.
  assert (Hl : exists l, letter_of env url = Ok l).
  { unfold letter_of. rewrite Hp. simpl. rewrite Hh.
    destruct h as [|c h].
    - exfalso. revert Hh. apply hostname_not_empty.
    - destruct (isdigit _); [eexists; reflexivity|].
      destruct (tld_domain env url) as [|d ds]; simpl; eexists; reflexivity. }
  destruct Hl as [l Hl].
  unfold resolve_icon. rewrite get_icon_none. simpl negb. cbv iota.
  unfold generate_letter_icon. rewrite Hl. simpl.
  rewrite Hp. eexists. split; [reflexivity|].
  now rewrite save_icon_image_path.
Qed.

Lemma save_icon_image_nonempty env image filename fs path fs' :
  save_icon_image env image filename fs = (Ok path, fs') -> path <> "".
Proof.
  unfold save_icon_image.
  destruct (negb (endswith _ ".png")); destruct (icons_writable env _);
    intros H; inversion H; discriminate.
Qed.

(** ** Icon resolution *)

(** C1.  When [create_website] succeeds, the row it has added carries as
    [icon_url] a non-empty string, which is the icon URL reported by
    [get_icon] or the path [save_icon_image] returned when writing the
    fallback icon into the icon directory. *)
Theorem create_website_icon_url env website user st out st' :
  create_website env website user st = (Ok out, st') ->
  exists row path,
    websites st' = (websites st ++ [row])%list
    /\ Models.icon_url row = PyStr path
    /\ path <> ""
    /\ (get_icon env (Schemas.url website) = PyDict [("icon_url", path)]
        \/ exists image filename,
             save_icon_image env image filename (files st)
             = (Ok path, files st')).
Proof.
  unfold create_website.
  destruct (resolve_icon env (Schemas.url website) (files st))
    as [[icon|e] fs] eqn:R; [|discriminate].
  intros H. injection H as _ <-. simpl.
  unfold resolve_icon in R. rewrite get_icon_none in R. simpl in R.
  destruct (generate_letter_icon env (Schemas.url website))
    as [image|]; [|discriminate].
  destruct (urlparse env (Schemas.url website)) as [parsed|]; [|discriminate].
  destruct (save_icon_image env image _ (files st)) as [[path|] fs0] eqn:S;
    [|discriminate].
  injection R as <- <-.
  eexists. exists path. repeat split.
  - eapply save_icon_image_nonempty, S.
  - right. eauto.
Qed.

Lemma create_website_icon_url_witness :
  exists row path,
    websites (snd (create_website site_a new_site_a admin empty_store))
    = ([] ++ [row])%list
    /\ Models.icon_url row = PyStr path
    /\ path <> "".
Proof.
  destruct (create_website_icon_url site_a new_site_a admin empty_store
              (Schemas.mkWebsite 1 "A" (PyStr "./icons/a.com_default.png")
                 "A site" 1 "https://a.com/page" None None)
              (snd (create_website site_a new_site_a admin empty_store))
              eq_refl)
    as (row & path & Hrow & Hicon & Hne & _).
  exists row, path. repeat split; assumption.
Defined.

(** C2.  On the page [https://a.com/page] that declares
    [<link rel='icon' href='/f.ico'>], found by the search for the relation
    [icon], [get_icon] answers [None]: its request is refused at the call.
    The resolution falls back to the letter icon, written to
    [./icons/a.com_default.png].  Past the request, the response would
    give the mapping [{icon_url: https://a.com/f.ico}] and not the URL. *)
Theorem get_icon_on_icon_link :
  let url := "https://a.com/page" in
  Bs4.find soup_a "link" [("rel", "icon")]
  = Some (Bs4.mkTag "link"
            [("rel", Bs4.Multi ["icon"]); ("href", Bs4.Single "/f.ico")])
  /\ get_icon site_a url = PyNone
  /\ (exists image,
        resolve_icon site_a url []
        = (Ok (PyStr "./icons/a.com_default.png"),
           [("./icons/a.com_default.png", image)]))
  /\ icon_of_response site_a url (Httpx.mkResponse 200 page_a)
     = Ok (PyDict [("icon_url", "https://a.com/f.ico")]).
Proof. repeat split. eexists. reflexivity. Qed.

(** C3.  The URL [example.com] has no host for [urlparse]: with the site
    out of reach, the resolution raises [AttributeError] from
    [generate_letter_icon], and so does [create_website], before anything
    is written or stored. *)
Theorem resolve_icon_without_host :
  resolve_icon offline "example.com" []
  = (Raise (AttributeError "'NoneType' object has no attribute 'replace'"), [])
  /\ create_website offline new_example admin empty_store
     = (Raise (AttributeError "'NoneType' object has no attribute 'replace'"),
        empty_store).
Proof. split; reflexivity. Qed.

(** A URL without a host never gets past [generate_letter_icon]. *)
Lemma letter_of_without_host env url parsed :
  urlparse env url = Ok parsed ->
  Urllib.hostname (Urllib.p_netloc parsed) = None ->
  exists msg, letter_of env url = Raise (AttributeError msg).
Proof.
  intros Hp Hh. unfold letter_of. rewrite Hp. simpl. rewrite Hh.
  eexists. reflexivity.
Qed.

(** The choice of the letter for a URL that has a host: when the host
    reads as a dotted-decimal address, the letter drawn is the first
    character of the host in upper case; otherwise it is the first
    character of the label [tldextract] reports in upper case, and [U]
    when that label is empty. *)
Theorem generate_letter_icon_letter env url parsed host :
  urlparse env url = Ok parsed ->
  Urllib.hostname (Urllib.p_netloc parsed) = Some host ->
  exists image,
    generate_letter_icon env url = Ok image
    /\ (is_ip_host host = true ->
        img_letter image = upper (first_char host))
    /\ (is_ip_host host = false ->
        (tld_domain env url <> "" ->
         img_letter image = upper (first_char (tld_domain env url)))
        /\ (tld_domain env url = "" -> img_letter image = "U")).
Proof.
  intros Hp Hh.
  unfold generate_letter_icon, letter_of. rewrite Hp. simpl. rewrite Hh.
  fold (is_ip_host host).
  destruct (is_ip_host host) eqn:Hip.
  - destruct host as [|c host]; [discriminate Hip|].
    eexists. split; [reflexivity|]. split; [reflexivity | discriminate].
  - destruct (tld_domain env url) as [|d ds] eqn:Hd; simpl;
      (eexists; split; [reflexivity|]; split; [discriminate|]);
      intros _; split; intros H; try reflexivity; try discriminate.
    now destruct H.
Qed.

Lemma generate_letter_icon_letter_witness :
  exists image,
    generate_letter_icon offline "http://192.168.1.1:8000/x" = Ok image
    /\ img_letter image = "1".
Proof.
  destruct (generate_letter_icon_letter offline "http://192.168.1.1:8000/x"
              (Urllib.mkParse "http" "192.168.1.1:8000" "/x" "" "" "")
              "192.168.1.1" eq_refl eq_refl)
    as (image & Himg & Hip & _).
  exists image. split; [exact Himg | exact (Hip eq_refl)].
Defined.

(** C4.  Two URLs that are not IP addresses and for which no letter is
    drawn: [example.com], whose label is [example], and the empty URL,
    which has no label.  [urlparse] finds no host in either, and
    [generate_letter_icon] raises [AttributeError] where the letters [E]
    and [U] were to be drawn. *)
Theorem generate_letter_icon_without_host :
  (tld_domain offline "example.com" = "example"
   /\ urlparse offline "example.com"
      = Ok (Urllib.mkParse "" "" "example.com" "" "" "")
   /\ generate_letter_icon offline "example.com"
      = Raise (AttributeError "'NoneType' object has no attribute 'replace'"))
  /\ (tld_domain offline "" = ""
      /\ urlparse offline "" = Ok (Urllib.mkParse "" "" "" "" "" "")
      /\ generate_letter_icon offline ""
         = Raise (AttributeError
                    "'NoneType' object has no attribute 'replace'")).
Proof. repeat split. Qed.

(** The fallback path is not named after the host: for
    [https://U:p@A.Com:8080/x], whose host is [a.com], the file is
    [./icons/U_p@A.Com_8080_default.png], named after the whole network
    location; and where the icon directory cannot be written to, no path
    is returned at all. *)
Lemma fallback_icon_path_not_from_host :
  let url := "https://U:p@A.Com:8080/x" in
  get_icon offline url = PyNone
  /\ urlparse offline url
     = Ok (Urllib.mkParse "https" "U:p@A.Com:8080" "/x" "" "" "")
  /\ Urllib.hostname "U:p@A.Com:8080" = Some "a.com"
  /\ fst (resolve_icon offline url [])
     = Ok (PyStr "./icons/U_p@A.Com_8080_default.png")
  /\ fst (resolve_icon offline url []) <> Ok (PyStr (host_icon_path "a.com"))
  /\ get_icon read_only_disk "https://a.com/page" = PyNone
  /\ resolve_icon read_only_disk "https://a.com/page" []
     = (Raise (OSError "./icons/a.com_default.png"), []).
Proof. repeat split. discriminate. Qed.

(** C5, as amended.  For a URL with a host on which [get_icon] has found
    nothing, and an icon directory that accepts the file, the resolution
    returns [./icons/] followed by the network location of the URL (user
    information, host as written, port), its [:] replaced by [_], and
    [_default.png]: a path under the icon directory that ends in [.png],
    once, and holds no [:]; the letter icon is written there.  When the
    location is a bare host (no user information, port, brackets or zone)
    the file is named after that host, up to letter case. *)
Theorem fallback_icon_path env url parsed host fs :
  get_icon env url = PyNone ->
  urlparse env url = Ok parsed ->
  Urllib.hostname (Urllib.p_netloc parsed) = Some host ->
  icons_writable env (default_icon_path (Urllib.p_netloc parsed)) = true ->
  let path :=
    "./icons/" ++ replace ":" "_" (Urllib.p_netloc parsed) ++ "_default.png" in
  (exists image,
     resolve_icon env url fs = (Ok (PyStr path), (path, image) :: fs))
  /\ startswith path "./icons/" = true
  /\ endswith path ".png" = true
  /\ endswith path ".png.png" = false
  /\ contains ":" path = false
  /\ (contains "@" (Urllib.p_netloc parsed) = false ->
      contains "[" (Urllib.p_netloc parsed) = false ->
      contains ":" (Urllib.p_netloc parsed) = false ->
      contains "%" (Urllib.p_netloc parsed) = false ->
      host = lower (Urllib.p_netloc parsed)
      /\ path = "./icons/" ++ Urllib.p_netloc parsed ++ "_default.png").
Proof.
  intros _ Hp Hh Hw path.
  destruct (resolve_icon_fallback env url parsed host fs Hp Hh Hw)
    as (image & _ & Hr).
  split; [exists image; exact Hr|].
  split; [apply startswith_app|].
  split.
  { subst path. change "_default.png" with ("_default" ++ ".png").
    rewrite <- !append_assoc. apply endswith_app. }
  split.
  { subst path. rewrite <- append_assoc.
    generalize ("./icons/" ++ replace ":" "_" (Urllib.p_netloc parsed)).
    intros s. induction s as [|c s IH]; [reflexivity|].
    simpl. rewrite IH, orb_false_r.
    destruct s as [|c1 [|c2 [|c3 [|c4 [|c5 [|c6 [|c7 [|c8 [|c9 [|c10 [|c11 s]]]]]]]]]]];
      try reflexivity.
    all: simpl; rewrite ?andb_false_r; try reflexivity.
    all: repeat match goal with
           | |- context [Ascii.eqb ?a ?b] => destruct (Ascii.eqb_spec a b); subst
           end; try reflexivity. }
  split.
  { subst path. rewrite !contains_app.
    rewrite contains_replace by reflexivity. reflexivity. }
  intros Hat Hbr Hco Hpc. split.
  - now apply hostname_plain.
  - subst path. now rewrite replace_absent.
Qed.

Lemma fallback_icon_path_witness :
  exists image,
    resolve_icon offline "http://192.168.1.1:8000/x" []
    = (Ok (PyStr "./icons/192.168.1.1_8000_default.png"),
       [("./icons/192.168.1.1_8000_default.png", image)]).
Proof.
  exact (proj1 (fallback_icon_path offline "http://192.168.1.1:8000/x"
                  (Urllib.mkParse "http" "192.168.1.1:8000" "/x" "" "" "")
                  "192.168.1.1" [] eq_refl eq_refl eq_refl eq_refl)).
Defined.

(** ** The description fetcher *)

(** The request [fetch_website_description] sends for [url]. *)
Lemma description_request env url :
  Httpx.get (transport env) (Httpx.mkClient true false) url
    [("headers", PyDict [("User-Agent", user_agent)])]
  = transport env (Httpx.mkClient true false)
      [("headers", PyDict [("User-Agent", user_agent)])] url.
Proof. reflexivity. Qed.

Lemma find_none_iff {A} (p : A -> bool) (l : list A) :
  List.find p l = None <-> forall x, In x l -> p x = false.
Proof.
  split.
  - intros H x Hx. eapply find_none; eauto.
  - induction l as [|a l IH]; intros H; simpl; [reflexivity|].
    rewrite (H a (or_introl eq_refl)). apply IH.
    intros x Hx. apply H. now right.
Qed.

Lemma find_first {A} (p : A -> bool) (before : list A) (x : A)
  (after : list A) :
  (forall y, In y before -> p y = false) -> p x = true ->
  List.find p (before ++ x :: after) = Some x.
Proof.
  intros Hb Hx. induction before as [|b before IH]; simpl.
  - now rewrite Hx.
  - rewrite (Hb b (or_introl eq_refl)). apply IH.
    intros y Hy. apply Hb. now right.
Qed.

(** C9.  [fetch_website_description] returns a text on every URL and in
    every environment.  The text is empty when the request fails, when the
    status is not a success, when the parser fails, when no [meta] tag of
    the page is named [description], and when the first such tag has no
    [content]; otherwise it is that [content], stripped. *)
Theorem fetch_website_description_cases env url :
  let request :=
    transport env (Httpx.mkClient true false)
      [("headers", PyDict [("User-Agent", user_agent)])] url in
  (forall e, request = Raise e -> fetch_website_description env url = "")
  /\ (forall r, request = Ok r -> Httpx.is_success r = false ->
      fetch_website_description env url = "")
  /\ (forall r e, request = Ok r -> Httpx.is_success r = true ->
      html_parser env (Httpx.text r) = Raise e ->
      fetch_website_description env url = "")
  /\ (forall r soup, request = Ok r -> Httpx.is_success r = true ->
      html_parser env (Httpx.text r) = Ok soup ->
      (forall t, In t soup ->
                 Bs4.tag_matches "meta" [("name", "description")] t = false) ->
      fetch_website_description env url = "")
  /\ (forall r soup before tag after, request = Ok r ->
      Httpx.is_success r = true ->
      html_parser env (Httpx.text r) = Ok soup ->
      soup = (before ++ tag :: after)%list ->
      (forall t, In t before ->
                 Bs4.tag_matches "meta" [("name", "description")] t = false) ->
      Bs4.tag_matches "meta" [("name", "description")] tag = true ->
      (Bs4.get tag "content" = None ->
       fetch_website_description env url = "")
      /\ (forall content, Bs4.get tag "content" = Some (Bs4.Single content) ->
          fetch_website_description env url = strip content)).
Proof.
  intros request. unfold fetch_website_description.
  rewrite description_request. fold request.
  split; [intros e ->; reflexivity|].
  split.
  { intros r -> Hs. simpl. unfold Httpx.raise_for_status. now rewrite Hs. }
  split.
  { intros r e -> Hs Hp. simpl. unfold Httpx.raise_for_status.
    rewrite Hs. simpl. now rewrite Hp. }
  split.
  { intros r soup -> Hs Hp Hnone. simpl. unfold Httpx.raise_for_status.
    rewrite Hs. simpl. rewrite Hp. simpl.
    unfold Bs4.find. apply find_none_iff in Hnone. now rewrite Hnone. }
  intros r soup before tag after -> Hs Hp -> Hbefore Htag.
  cbn [bind]. unfold Httpx.raise_for_status. rewrite Hs. cbn [bind].
  rewrite Hp. cbn [bind]. unfold Bs4.find.
  rewrite (find_first _ before tag after Hbefore Htag).
  split.
  - intros Hc. now rewrite Hc.
  - intros content Hc. now rewrite Hc.
Qed.

Lemma fetch_website_description_cases_witness :
  fetch_website_description site_a "https://a.com/page" = "A site".
Proof.
  destruct (fetch_website_description_cases site_a "https://a.com/page")
    as (_ & _ & _ & _ & H).
  refine (proj2
            (H (Httpx.mkResponse 200 page_a) soup_a
               [Bs4.mkTag "html" []; Bs4.mkTag "head" []]
               (Bs4.mkTag "meta"
                  [("name", Bs4.Single "description");
                   ("content", Bs4.Single "  A site  ")])
               [Bs4.mkTag "link"
                  [("rel", Bs4.Multi ["icon"]); ("href", Bs4.Single "/f.ico")]]
               eq_refl eq_refl eq_refl eq_refl _ eq_refl)
            "  A site  " eq_refl).
  intros t [<-|[<-|[]]]; reflexivity.
Defined.

(** ** The listing *)

Lemma insert_row_perm x l : Permutation (x :: l) (insert_row x l).
Proof.
  induction l as [|y l IH]; simpl; [reflexivity|].
  destruct (Models.order (fst x) <=? Models.order (fst y)); [reflexivity|].
  rewrite perm_swap. now apply perm_skip.
Qed.

Lemma insert_row_sorted x l :
  StronglySorted row_le l -> StronglySorted row_le (insert_row x l).
Proof.
  induction 1 as [|y l Hl IH Hy]; simpl.
  - constructor; constructor.
  - destruct (Models.order (fst x) <=? Models.order (fst y)) eqn:E.
    + apply Z.leb_le in E. constructor; [now constructor|].
      constructor; [exact E|].
      eapply Forall_impl; [|exact Hy].
      intros z Hz. unfold row_le in *. lia.
    + apply Z.leb_gt in E. constructor; [exact IH|].
      eapply Permutation_Forall; [apply insert_row_perm|].
      constructor; [unfold row_le; lia | exact Hy].
Qed.

Lemma order_by_perm l : Permutation l (order_by l).
Proof.
  induction l as [|x l IH]; simpl; [reflexivity|].
  etransitivity; [apply perm_skip, IH | apply insert_row_perm].
Qed.

Lemma order_by_sorted l : StronglySorted row_le (order_by l).
Proof.
  induction l as [|x l IH]; simpl; [constructor | now apply insert_row_sorted].
Qed.

Lemma order_by_length l : List.length (order_by l) = List.length l.
Proof. symmetry. apply Permutation_length, order_by_perm. Qed.

Lemma composed_orders rows :
  StronglySorted row_le rows ->
  StronglySorted Z.le (orders (map compose rows)).
Proof.
  induction 1 as [|[w cn] l Hl IH Hy]; simpl; constructor; [exact IH|].
  unfold orders. rewrite map_map. apply Forall_map.
  eapply Forall_impl; [|exact Hy]. now intros [w' cn'].
Qed.

Lemma sorted_skipn {A} (R : A -> A -> Prop) n l :
  StronglySorted R l -> StronglySorted R (skipn n l).
Proof.
  intros H. revert n. induction H as [|x l Hl IH Hx]; intros [|n]; simpl;
    try constructor; auto.
Qed.

Lemma Forall_firstn {A} (P : A -> Prop) n l :
  Forall P l -> Forall P (firstn n l).
Proof.
  intros H. revert n. induction H as [|x l Hx Hl IH]; intros [|n]; simpl;
    constructor; auto.
Qed.

Lemma sorted_firstn {A} (R : A -> A -> Prop) n l :
  StronglySorted R l -> StronglySorted R (firstn n l).
Proof.
  intros H. revert n. induction H as [|x l Hl IH Hx]; intros [|n]; simpl;
    try constructor; auto.
  now apply Forall_firstn.
Qed.

Lemma outer_join_length ws cs :
  (List.length ws <= List.length (outer_join ws cs))%nat.
Proof.
  induction ws as [|w ws IH]; simpl; [lia|].
  rewrite length_app.
  destruct (filter _ cs) as [|c matched]; simpl; lia.
Qed.

Lemma outer_join_in ws cs w :
  In w ws -> exists category_name, In (w, category_name) (outer_join ws cs).
Proof.
  intros Hw. unfold outer_join.
  destruct (filter (fun c =>
                      match Models.category_id w with
                      | Some k => Models.cat_id c =? k
                      | None => false
                      end) cs) as [|c matched] eqn:E.
  - exists None. apply in_flat_map. exists w. split; [exact Hw|].
    rewrite E. now left.
  - exists (Some (Models.cat_name c)). apply in_flat_map. exists w.
    split; [exact Hw|]. rewrite E. now left.
Qed.

Lemma or_default_skip skip :
  valid_skip skip -> or_default skip 0 = default_to skip 0.
Proof.
  destruct skip as [s|]; simpl; [|reflexivity].
  intros _. destruct (Z.eqb_spec s 0); congruence.
Qed.

Lemma or_default_limit limit_ :
  valid_limit limit_ -> or_default limit_ 10 = default_to limit_ 10.
Proof.
  destruct limit_ as [l|]; simpl; [|reflexivity].
  intros H. destruct (Z.eqb_spec l 0); [lia | reflexivity].
Qed.

Lemma read_websites_validated st skip limit_ all_data :
  valid_skip skip -> valid_limit limit_ ->
  read_websites st skip limit_ all_data
  = if match all_data with Some b => b | None => false end then
      let response_data :=
        map compose (order_by (outer_join (websites st) (categories st))) in
      Ok (Schemas.mkPaginated response_data
            (Z.of_nat (List.length response_data)))
    else
      Ok (Schemas.mkPaginated
            (map compose
               (limit (or_default limit_ 10)
                  (offset (or_default skip 0)
                     (order_by (outer_join (websites st) (categories st))))))
            (Z.of_nat (List.length (websites st)))).
Proof.
  intros Hs Hl. unfold read_websites.
  replace (match skip with Some s => s <? 0 | None => false end) with false.
  - replace (match limit_ with Some l => l <? 1 | None => false end)
      with false; [reflexivity|].
    destruct limit_ as [l|]; simpl in *; [|reflexivity].
    symmetry. apply Z.ltb_ge. lia.
  - destruct skip as [s|]; simpl in *; [|reflexivity].
    symmetry. apply Z.ltb_ge. lia.
Qed.

(** C6.  A listing with [all_data] set returns as [total] the length of
    its [data], and the ranks of [data] never decrease. *)
Theorem read_websites_all_data st skip limit_ :
  valid_skip skip -> valid_limit limit_ ->
  exists r,
    read_websites st skip limit_ (Some true) = Ok r
    /\ Schemas.total r = Z.of_nat (List.length (Schemas.data r))
    /\ StronglySorted Z.le (orders (Schemas.data r)).
Proof.
  intros Hs Hl. rewrite (read_websites_validated _ _ _ _ Hs Hl). simpl.
  eexists. split; [reflexivity|]. simpl. split; [reflexivity|].
  apply composed_orders, order_by_sorted.
Qed.

Lemma read_websites_all_data_witness :
  exists r,
    read_websites store_25 (Some 3) (Some 5) (Some true) = Ok r
    /\ Schemas.total r = 25
    /\ StronglySorted Z.le (orders (Schemas.data r)).
Proof.
  destruct (read_websites_all_data store_25 (Some 3) (Some 5))
    as (r & Hr & Ht & Hsorted).
  - simpl. lia.
  - simpl. lia.
  - exists r. split; [exact Hr|]. split; [|exact Hsorted].
    rewrite Ht. injection Hr as <-. reflexivity.
Defined.

(** C7.  A listing without [all_data] returns as [total] the number of
    rows of the website table, whatever [skip] and [limit] are, and as
    [data] the full ordered listing from which the first [skip] rows
    (none by default) are dropped and of which at most [limit] rows (10 by
    default) are kept; its ranks never decrease.  On a table of 25 rows,
    [skip] 0 and [limit] 10 give 10 rows and the total 25. *)
Theorem read_websites_page st skip limit_ all_data :
  valid_skip skip -> valid_limit limit_ -> all_data <> Some true ->
  exists r everything,
    read_websites st skip limit_ all_data = Ok r
    /\ read_websites st None None (Some true) = Ok everything
    /\ Schemas.total r = Z.of_nat (List.length (websites st))
    /\ Schemas.data r
       = firstn (Z.to_nat (default_to limit_ 10))
           (skipn (Z.to_nat (default_to skip 0)) (Schemas.data everything))
    /\ StronglySorted Z.le (orders (Schemas.data r))
    /\ (List.length (websites st) = 25%nat ->
        default_to skip 0 = 0 -> default_to limit_ 10 = 10 ->
        List.length (Schemas.data r) = 10%nat /\ Schemas.total r = 25).
Proof.
  intros Hs Hl Hall.
  rewrite (read_websites_validated _ _ _ _ Hs Hl).
  replace (match all_data with Some b => b | None => false end) with false
    by (destruct all_data as [[|]|]; congruence).
  rewrite or_default_skip, or_default_limit by assumption.
  do 2 eexists. split; [reflexivity|]. split; [reflexivity|]. simpl.
  unfold limit, offset.
  split; [reflexivity|].
  split; [now rewrite skipn_map, firstn_map|].
  split.
  { apply composed_orders, sorted_firstn, sorted_skipn, order_by_sorted. }
  intros H25 -> ->. split; [|now rewrite H25].
  rewrite length_map, length_firstn. simpl skipn.
  pose proof (outer_join_length (websites st) (categories st)) as Hj.
  rewrite order_by_length. rewrite H25 in Hj.
  change (Z.to_nat 10) with 10%nat. lia.
Qed.

Lemma read_websites_page_witness :
  exists r,
    read_websites store_25 (Some 0) (Some 10) None = Ok r
    /\ List.length (Schemas.data r) = 10%nat
    /\ Schemas.total r = 25.
Proof.
  destruct (read_websites_page store_25 (Some 0) (Some 10) None)
    as (r & everything & Hr & _ & _ & _ & _ & H25).
  - simpl. lia.
  - simpl. lia.
  - discriminate.
  - exists r. split; [exact Hr|]. apply H25; reflexivity.
Defined.

(** C10.  With [all_data] set, [skip] and [limit] do not change the
    answer, and every row of the website table is part of it. *)
Theorem read_websites_all_data_ignores_paging st skip limit_ skip' limit' :
  valid_skip skip -> valid_limit limit_ ->
  valid_skip skip' -> valid_limit limit' ->
  read_websites st skip limit_ (Some true)
  = read_websites st skip' limit' (Some true)
  /\ exists r,
      read_websites st skip limit_ (Some true) = Ok r
      /\ (forall w, In w (websites st) ->
          exists category_name,
            In (compose (w, category_name)) (Schemas.data r))
      /\ Permutation (Schemas.data r)
           (map compose (outer_join (websites st) (categories st))).
Proof.
  intros Hs Hl Hs' Hl'.
  rewrite (read_websites_validated _ _ _ _ Hs Hl).
  rewrite (read_websites_validated _ _ _ _ Hs' Hl').
  split; [reflexivity|]. cbn [Schemas.data].
  eexists. split; [reflexivity|]. cbn [Schemas.data]. split.
  - intros w Hw.
    destruct (outer_join_in _ (categories st) _ Hw) as [cn Hcn].
    exists cn. apply in_map.
    eapply Permutation_in; [apply order_by_perm | exact Hcn].
  - apply Permutation_map. symmetry. apply order_by_perm.
Qed.

Lemma read_websites_all_data_ignores_paging_witness :
  read_websites store_25 (Some 20) (Some 2) (Some true)
  = read_websites store_25 None None (Some true).
Proof.
  refine (proj1 (read_websites_all_data_ignores_paging store_25
                   (Some 20) (Some 2) None None _ _ I I)); simpl; lia.
Defined.

(** ** Updates *)

(** C8.  When no row of the website table has the identifier,
    [update_website] raises the 404 [HTTPException] and the store it leaves
    is the store it was given. *)
Theorem update_website_not_found website_id website user st :
  (forall w, In w (websites st) -> Models.id w <> website_id) ->
  update_website website_id website user st
  = (Raise (HTTPException 404 "Website not found"), st).
Proof.
  intros Hnone. unfold update_website.
  replace (db_get st website_id) with (@None Models.Website); [reflexivity|].
  symmetry. apply find_none_iff. intros w Hw.
  apply Z.eqb_neq. now apply Hnone.
Qed.

Lemma update_website_not_found_witness :
  update_website 7 new_site_a admin store_2
  = (Raise (HTTPException 404 "Website not found"), store_2).
Proof.
  apply update_website_not_found.
  intros w [<-|[<-|[]]]; discriminate.
Defined.

(** ** The response handling of [get_icon]

    What lines 73 to 89 make of a page, were it fetched: the first [link]
    whose relation matches [icon] decides; its [href] is kept when it
    starts with [http://] or [https://] and joined to the requested URL
    otherwise; the outcome is a mapping with the one key [icon_url]. *)

Lemma icon_of_response_first_icon env url r soup before link after href :
  html_parser env (Httpx.text r) = Ok soup ->
  soup = (before ++ link :: after)%list ->
  (forall t, In t before ->
             Bs4.tag_matches "link" [("rel", "icon")] t = false) ->
  Bs4.tag_matches "link" [("rel", "icon")] link = true ->
  Bs4.get link "href" = Some (Bs4.Single href) ->
  href <> "" ->
  icon_of_response env url r
  = (icon_url <-
       (if startswith href "http://" || startswith href "https://"
        then Ok href else urljoin env url href) ;;
     Ok (PyDict [("icon_url", icon_url)])).
Proof.
  intros Hp -> Hbefore Hlink Hhref Hne.
  unfold icon_of_response. rewrite Hp. cbn [bind]. unfold Bs4.find.
  rewrite (find_first _ before link after Hbefore Hlink).
  rewrite Hhref. cbn [Bs4.attr_truthy].
  apply String.eqb_neq in Hne. rewrite Hne. cbn [negb].
  now destruct (startswith href "http://" || startswith href "https://").
Qed.

(** A relation [shortcut icon] holds the token [icon]: the first search
    of [get_icon] already matches it. *)
Example shortcut_icon_matches_icon :
  Bs4.tag_matches "link" [("rel", "icon")]
    (Bs4.mkTag "link"
       [("rel", Bs4.Multi ["shortcut"; "icon"]); ("href", Bs4.Single "/s.ico")])
  = true.
Proof. reflexivity. Qed.

(** ** The URL functions on sample inputs *)

Example urljoin_samples :
  Urllib.urljoin (fun _ => false) "https://a.com/page" "/f.ico"
  = Ok "https://a.com/f.ico"
  /\ Urllib.urljoin (fun _ => false) "https://a.com/d/e/page?x=1"
       "../img/./f.ico?v=2#z"
     = Ok "https://a.com/d/img/f.ico?v=2#z"
  /\ Urllib.urljoin (fun _ => false) "https://a.com/d/" "//cdn.b.com/f.ico"
     = Ok "https://cdn.b.com/f.ico"
  /\ Urllib.urljoin (fun _ => false) "https://a.com/x/y"
       "data:image/png;base64,AAA"
     = Ok "data:image/png;base64,AAA".
Proof. repeat split. Qed.

Example hostname_samples :
  Urllib.hostname "U:p@A.Com:8080" = Some "a.com"
  /\ Urllib.hostname "192.168.1.1:8000" = Some "192.168.1.1"
  /\ Urllib.hostname "[::1]:80" = Some "::1"
  /\ Urllib.hostname ":80" = None
  /\ Urllib.hostname "" = None.
Proof. repeat split. Qed.

Example netloc_samples :
  option_map Urllib.p_netloc
    (match Urllib.urlparse (fun _ => false) "example.com" "" with
     | Ok p => Some p | Raise _ => None end) = Some ""
  /\ option_map Urllib.p_netloc
       (match Urllib.urlparse (fun _ => false) "https://U:p@A.Com:8080/x" ""
        with Ok p => Some p | Raise _ => None end) = Some "U:p@A.Com:8080".
Proof. repeat split. Qed.

(** * Further properties of the handlers *)

(** ** Deleting *)

Lemma db_get_some st website_id row :
  db_get st website_id = Some row ->
  In row (websites st) /\ Models.id row = website_id.
Proof.
  unfold db_get. intros H. apply find_some in H as [Hin Hid].
  split; [exact Hin | now apply Z.eqb_eq].
Qed.

Lemma db_get_filter_out (ws : list Models.Website) (k : Z) :
  List.find (fun w => Models.id w =? k)
    (filter (fun r => negb (Models.id r =? k)) ws) = None.
Proof.
  apply find_none_iff. intros w Hw. apply filter_In in Hw as [_ Hw].
  now apply negb_true_iff in Hw.
Qed.

(** X1.  Deleting a website that exists succeeds and removes every trace
    of the identifier: the identifier is no longer found afterwards, and
    deleting it a second time raises the 404 [HTTPException] without
    changing the store. *)
Theorem delete_website_twice website_id user st row :
  db_get st website_id = Some row ->
  exists st',
    delete_website website_id user st = (Ok tt, st')
    /\ db_get st' website_id = None
    /\ delete_website website_id user st'
       = (Raise (HTTPException 404 "Website not found"), st').
Proof.
  intros Hget. destruct (db_get_some _ _ _ Hget) as [_ Hid].
  unfold delete_website at 1. rewrite Hget. eexists. split; [reflexivity|].
  assert (Hnone : db_get
                    (mkStore
                       (filter (fun r => negb (Models.id r =? Models.id row))
                          (websites st))
                       (categories st) (next_id st) (files st)) website_id
                  = None).
  { unfold db_get. cbn [websites]. rewrite Hid. apply db_get_filter_out. }
  split; [exact Hnone|].
  unfold delete_website. now rewrite Hnone.
Qed.

Lemma delete_website_twice_witness :
  exists st',
    delete_website 2 admin store_2 = (Ok tt, st')
    /\ delete_website 2 admin st'
       = (Raise (HTTPException 404 "Website not found"), st').
Proof.
  destruct (delete_website_twice 2 admin store_2 (site_row 2) eq_refl)
    as (st' & Hd & _ & Hd').
  exists st'. split; assumption.
Defined.

Lemma filter_other_ids_length (ws : list Models.Website) (row : Models.Website) :
  NoDup (map Models.id ws) -> In row ws ->
  List.length ws
  = S (List.length (filter (fun r => negb (Models.id r =? Models.id row)) ws)).
Proof.
  induction ws as [|w ws IH]; intros Hnd Hin; [contradiction|].
  simpl in Hnd. inversion Hnd as [|? ? Hnotin Hnd']; subst.
  simpl. destruct Hin as [->|Hin].
  - rewrite Z.eqb_refl. simpl. f_equal.
    clear IH Hnd. induction ws as [|v ws IHw]; [reflexivity|].
    simpl in *. inversion Hnd' as [|? ? Hv Hnd'']; subst.
    destruct (Z.eqb_spec (Models.id v) (Models.id row)) as [E|E].
    + exfalso. apply Hnotin. now left.
    + simpl. f_equal. apply IHw; [|exact Hnd''].
      intros Hc. apply Hnotin. now right.
  - destruct (Z.eqb_spec (Models.id w) (Models.id row)) as [E|E].
    + exfalso. apply Hnotin. rewrite E. now apply in_map.
    + simpl. f_equal. now apply IH.
Qed.

(** X2.  Deleting a website removes the rows with that identifier and
    nothing else: every other row stays, in its place; the categories, the
    identifier counter and the icon files are untouched (the icon of the
    deleted website stays on disk); with unique identifiers the table
    loses exactly one row. *)
Theorem delete_website_keeps_others website_id user st row :
  db_get st website_id = Some row ->
  exists st',
    delete_website website_id user st = (Ok tt, st')
    /\ (forall w, In w (websites st')
                  <-> In w (websites st) /\ Models.id w <> website_id)
    /\ categories st' = categories st
    /\ files st' = files st
    /\ (unique_ids st ->
        List.length (websites st) = S (List.length (websites st'))).
Proof.
  intros Hget. destruct (db_get_some _ _ _ Hget) as [Hin Hid].
  unfold delete_website. rewrite Hget. eexists. split; [reflexivity|].
  cbn [websites categories files]. split.
  { intros w. rewrite filter_In, negb_true_iff, Z.eqb_neq, Hid. tauto. }
  do 2 (split; [reflexivity|]).
  intros Hnd. now apply filter_other_ids_length.
Qed.

Lemma delete_website_keeps_others_witness :
  exists st',
    delete_website 1 admin store_2 = (Ok tt, st')
    /\ List.length (websites st') = 1%nat.
Proof.
  destruct (delete_website_keeps_others 1 admin store_2 (site_row 1) eq_refl)
    as (st' & Hd & _ & _ & _ & Hlen).
  exists st'. split; [exact Hd|].
  assert (Hu : unique_ids store_2).
  { unfold unique_ids. simpl. repeat constructor; simpl; intuition discriminate. }
  specialize (Hlen Hu). simpl in Hlen. now injection Hlen as <-.
Defined.

(** ** Updating *)

Lemma updated_row_fields website row :
  let row' :=
    fold_left (setattr website) (model_dump_exclude_unset website) row in
  Models.id row' = Models.id row
  /\ Models.icon_url row' = Models.icon_url row
  /\ Models.description row' = Models.description row
  /\ Models.name row'
     = (if supplied website Schemas.FName then Schemas.name website
        else Models.name row)
  /\ Models.url row'
     = (if supplied website Schemas.FUrl then Schemas.url website
        else Models.url row)
  /\ Models.order row'
     = (if supplied website Schemas.FOrder then Schemas.order website
        else Models.order row)
  /\ Models.category_id row'
     = (if supplied website Schemas.FCategoryId
        then Schemas.category_id website
        else Models.category_id row).
Proof.
  unfold model_dump_exclude_unset, supplied. cbn [filter].
  destruct (existsb (Schemas.field_eqb Schemas.FName) _);
    destruct (existsb (Schemas.field_eqb Schemas.FUrl) _);
    destruct (existsb (Schemas.field_eqb Schemas.FOrder) _);
    destruct (existsb (Schemas.field_eqb Schemas.FCategoryId) _);
    cbn; repeat split.
Qed.

Lemma store_row_in (w row : Models.Website) ws :
  In row ws -> Models.id w = Models.id row -> In w (store_row w ws).
Proof.
  intros Hin Hid. unfold store_row. apply in_map_iff. exists row.
  split; [|exact Hin]. rewrite Hid, Z.eqb_refl. reflexivity.
Qed.

Lemma store_row_ids (w : Models.Website) ws :
  map Models.id (store_row w ws) = map Models.id ws.
Proof.
  unfold store_row. rewrite map_map. apply map_ext_in. intros r _.
  destruct (Z.eqb_spec (Models.id r) (Models.id w)); congruence.
Qed.

Lemma store_row_others (w r : Models.Website) ws :
  In r ws -> Models.id r <> Models.id w -> In r (store_row w ws).
Proof.
  intros Hin Hid. unfold store_row. apply in_map_iff. exists r.
  split; [|exact Hin].
  destruct (Z.eqb_spec (Models.id r) (Models.id w)); congruence.
Qed.

(** X3.  Updating a website that exists is a partial update: each of
    [name], [url], [order] and [category_id] takes the value of the
    request when the request supplied it and keeps its value otherwise;
    the identifier, the icon and the description never change.  The
    record returned is the stored row with the name of its category; the
    identifiers of the table are the same, in the same order, and the rows
    with another identifier are kept. *)
Theorem update_website_partial website_id website user st row :
  db_get st website_id = Some row ->
  exists row' st',
    update_website website_id website user st
    = (Ok (compose (row', category_name_of st (Models.category_id row'))), st')
    /\ In row' (websites st')
    /\ Models.id row' = website_id
    /\ Models.icon_url row' = Models.icon_url row
    /\ Models.description row' = Models.description row
    /\ Models.name row'
       = (if supplied website Schemas.FName then Schemas.name website
          else Models.name row)
    /\ Models.url row'
       = (if supplied website Schemas.FUrl then Schemas.url website
          else Models.url row)
    /\ Models.order row'
       = (if supplied website Schemas.FOrder then Schemas.order website
          else Models.order row)
    /\ Models.category_id row'
       = (if supplied website Schemas.FCategoryId
          then Schemas.category_id website
          else Models.category_id row)
    /\ map Models.id (websites st') = map Models.id (websites st)
    /\ (forall w, In w (websites st) -> Models.id w <> website_id ->
                  In w (websites st'))
    /\ categories st' = categories st
    /\ files st' = files st.
Proof.
  intros Hget. destruct (db_get_some _ _ _ Hget) as [Hin Hid].
  destruct (updated_row_fields website row)
    as (Fid & Ficon & Fdesc & Fname & Furl & Forder & Fcat).
  unfold update_website. rewrite Hget.
  set (row' := fold_left (setattr website) (model_dump_exclude_unset website)
                 row) in *.
  exists row'. eexists. split; [reflexivity|]. cbn [websites categories files].
  split; [apply (store_row_in _ row); assumption|].
  split; [congruence|].
  do 6 (split; [assumption|]).
  split; [apply store_row_ids|].
  split; [|split; reflexivity].
  intros w Hw Hne. apply store_row_others; [exact Hw | congruence].
Qed.

Lemma update_website_partial_witness :
  exists row' st',
    fst (update_website 2 rename_only admin store_2)
    = Ok (compose (row', Some "tools"))
    /\ snd (update_website 2 rename_only admin store_2) = st'
    /\ Models.name row' = "Renamed"
    /\ Models.url row' = "https://a.com/page"
    /\ Models.order row' = 28.
Proof.
  destruct (update_website_partial 2 rename_only admin store_2 (site_row 2)
              eq_refl)
    as (row' & st' & Hu & _ & _ & _ & _ & Hname & Hurl & Horder & Hcat & _).
  exists row', st'. rewrite Hu. cbn [fst snd].
  split; [now rewrite Hcat|].
  split; [reflexivity|].
  split; [exact Hname|]. split; [exact Hurl | exact Horder].
Defined.

Lemma store_row_unchanged (row : Models.Website) ws :
  NoDup (map Models.id ws) -> In row ws -> store_row row ws = ws.
Proof.
  intros Hnd Hin. unfold store_row.
  rewrite <- (map_id ws) at 2. apply map_ext_in. intros r Hr.
  destruct (Z.eqb_spec (Models.id r) (Models.id row)) as [E|E];
    [|reflexivity].
  clear - Hnd Hin Hr E. induction ws as [|w ws IH]; [contradiction|].
  simpl in Hnd. inversion Hnd as [|? ? Hnotin Hnd']; subst.
  destruct Hin as [->|Hin]; destruct Hr as [->|Hr]; try reflexivity.
  - exfalso. apply Hnotin. rewrite <- E. now apply in_map.
  - exfalso. apply Hnotin. rewrite E. now apply in_map.
  - now apply IH.
Qed.

(** X4.  A request that supplies no field changes nothing: with unique
    identifiers the store after the update is the store before it, and
    the record returned is the row as it was. *)
Theorem update_website_nothing_supplied website_id website user st row :
  unique_ids st ->
  db_get st website_id = Some row ->
  Schemas.fields_set website = [] ->
  update_website website_id website user st
  = (Ok (compose (row, category_name_of st (Models.category_id row))), st).
Proof.
  intros Hnd Hget Hset. destruct (db_get_some _ _ _ Hget) as [Hin _].
  unfold update_website. rewrite Hget.
  unfold model_dump_exclude_unset. rewrite Hset. cbn [filter existsb fold_left].
  rewrite (store_row_unchanged _ _ Hnd Hin). now destruct st.
Qed.

Lemma update_website_nothing_supplied_witness :
  snd (update_website 1
         (Schemas.mkWebsiteCreate "ignored" "ignored" 5 (Some 9) [])
         admin store_2)
  = store_2.
Proof.
  rewrite (update_website_nothing_supplied 1
             (Schemas.mkWebsiteCreate "ignored" "ignored" 5 (Some 9) [])
             admin store_2 (site_row 1)).
  - reflexivity.
  - unfold unique_ids. simpl. repeat constructor; simpl; intuition discriminate.
  - reflexivity.
  - reflexivity.
Defined.

Lemma find_map_same {A} (p : A -> bool) (f : A -> A) (l : list A) :
  (forall x, p (f x) = p x) ->
  List.find p (map f l) = option_map f (List.find p l).
Proof.
  intros Hp. induction l as [|x l IH]; simpl; [reflexivity|].
  rewrite Hp. destruct (p x); [reflexivity | exact IH].
Qed.

Lemma setattrs_idempotent website row :
  let apply := fold_left (setattr website) (model_dump_exclude_unset website) in
  apply (apply row) = apply row.
Proof.
  unfold model_dump_exclude_unset. cbn [filter].
  destruct (existsb (Schemas.field_eqb Schemas.FName) _);
    destruct (existsb (Schemas.field_eqb Schemas.FUrl) _);
    destruct (existsb (Schemas.field_eqb Schemas.FOrder) _);
    destruct (existsb (Schemas.field_eqb Schemas.FCategoryId) _);
    reflexivity.
Qed.

Lemma store_row_twice (w : Models.Website) ws :
  store_row w (store_row w ws) = store_row w ws.
Proof.
  unfold store_row. rewrite map_map. apply map_ext. intros r.
  destruct (Z.eqb_spec (Models.id r) (Models.id w)) as [E|E].
  - now rewrite Z.eqb_refl.
  - destruct (Z.eqb_spec (Models.id r) (Models.id w)); congruence.
Qed.

(** X5.  Updating is idempotent: sending the same request for the same
    website again returns the same record and leaves the store as the
    first update left it. *)
Theorem update_website_idempotent website_id website user st row :
  db_get st website_id = Some row ->
  exists out st',
    update_website website_id website user st = (Ok out, st')
    /\ update_website website_id website user st' = (Ok out, st').
Proof.
  intros Hget. destruct (db_get_some _ _ _ Hget) as [Hin Hid].
  destruct (updated_row_fields website row) as (Fid & _).
  unfold update_website at 1. rewrite Hget.
  set (row' := fold_left (setattr website) (model_dump_exclude_unset website)
                 row) in *.
  do 2 eexists. split; [reflexivity|].
  unfold update_website.
  assert (Hget' : db_get
                    (mkStore (store_row row' (websites st)) (categories st)
                       (next_id st) (files st)) website_id = Some row').
  { unfold db_get. cbn [websites]. unfold store_row.
    rewrite find_map_same.
    - fold (db_get st website_id). rewrite Hget. cbn [option_map].
      now rewrite Fid, Hid, Z.eqb_refl.
    - intros r. destruct (Z.eqb_spec (Models.id r) (Models.id row'));
        congruence. }
  rewrite Hget'. cbn [websites categories next_id files].
  pose proof (setattrs_idempotent website row) as Hidem. cbn zeta in Hidem.
  fold row' in Hidem. rewrite Hidem, store_row_twice. reflexivity.
Qed.

Lemma update_website_idempotent_witness :
  update_website 2 rename_only admin
    (snd (update_website 2 rename_only admin store_2))
  = update_website 2 rename_only admin store_2.
Proof.
  destruct (update_website_idempotent 2 rename_only admin store_2
              (site_row 2) eq_refl) as (out & st' & H1 & H2).
  rewrite H1. cbn [snd]. exact H2.
Defined.

(** ** Creating *)

Lemma save_default_icon env image netloc fs :
  save_icon_image env image (netloc ++ "_default.png") fs
  = if icons_writable env (default_icon_path netloc)
    then (Ok (default_icon_path netloc),
          (default_icon_path netloc, image) :: fs)
    else (Raise (write_error (default_icon_path netloc)), fs).
Proof.
  unfold save_icon_image. rewrite replace_app.
  change (replace ":" "_" "_default.png") with "_default.png".
  replace (endswith ("./icons/" ++ replace ":" "_" netloc ++ "_default.png")
             ".png") with true; [reflexivity|].
  symmetry. change "_default.png" with ("_default" ++ ".png").
  rewrite <- !append_assoc. apply endswith_app.
Qed.

Lemma letter_of_with_host env url parsed host :
  urlparse env url = Ok parsed ->
  Urllib.hostname (Urllib.p_netloc parsed) = Some host ->
  exists letter, letter_of env url = Ok letter.
Proof.
  intros Hp Hh. unfold letter_of. rewrite Hp. cbn [bind]. rewrite Hh.
  destruct host as [|c host].
  - exfalso. revert Hh. apply hostname_not_empty.
  - destruct (isdigit _); [eexists; reflexivity|].
    destruct (tld_domain env url); eexists; reflexivity.
Qed.

(** The three ways the icon resolution ends. *)
Lemma resolve_icon_outcome env url fs :
  match urlparse env url with
  | Raise e => resolve_icon env url fs = (Raise e, fs)
  | Ok parsed =>
      match Urllib.hostname (Urllib.p_netloc parsed) with
      | None =>
          resolve_icon env url fs
          = (Raise (AttributeError
                      "'NoneType' object has no attribute 'replace'"), fs)
      | Some _ =>
          let path := default_icon_path (Urllib.p_netloc parsed) in
          if icons_writable env path then
            exists image,
              generate_letter_icon env url = Ok image
              /\ resolve_icon env url fs = (Ok (PyStr path), (path, image) :: fs)
          else resolve_icon env url fs = (Raise (write_error path), fs)
      end
  end.
Proof.
  unfold resolve_icon. rewrite get_icon_none. cbn [truthy negb].
  unfold generate_letter_icon.
  destruct (urlparse env url) as [parsed|e] eqn:Hp.
  - destruct (Urllib.hostname (Urllib.p_netloc parsed)) as [host|] eqn:Hh.
    + destruct (letter_of_with_host _ _ _ _ Hp Hh) as [letter Hl].
      rewrite Hl. cbn [bind]. rewrite save_default_icon. cbn zeta.
      destruct (icons_writable env _); [|reflexivity].
      eexists. split; reflexivity.
    + unfold letter_of. rewrite Hp. cbn [bind]. rewrite Hh. reflexivity.
  - unfold letter_of. rewrite Hp. reflexivity.
Qed.

(** X6.  [create_website] succeeds exactly when the URL has a host for
    [urlparse] and the fallback icon can be written; nothing else about
    the request, the store or the network matters (the commit to the
    database is taken to succeed). *)
Theorem create_website_succeeds_iff env website user st :
  (exists out st', create_website env website user st = (Ok out, st'))
  <-> exists parsed host,
        urlparse env (Schemas.url website) = Ok parsed
        /\ Urllib.hostname (Urllib.p_netloc parsed) = Some host
        /\ icons_writable env (default_icon_path (Urllib.p_netloc parsed))
           = true.
Proof.
  pose proof (resolve_icon_outcome env (Schemas.url website) (files st)) as R.
  unfold create_website. split.
  - intros (out & st' & H).
    destruct (urlparse env (Schemas.url website)) as [parsed|e].
    + destruct (Urllib.hostname (Urllib.p_netloc parsed)) as [host|] eqn:Hh.
      * cbn zeta in R.
        destruct (icons_writable env _) eqn:Hw.
        -- exists parsed, host.
           split; [reflexivity|]. split; [exact Hh | exact Hw].
        -- rewrite R in H. discriminate.
      * rewrite R in H. discriminate.
    + rewrite R in H. discriminate.
  - intros (parsed & host & Hp & Hh & Hw).
    rewrite Hp, Hh in R. cbn zeta in R. rewrite Hw in R.
    destruct R as (image & _ & R). rewrite R. do 2 eexists. reflexivity.
Qed.

Lemma create_website_succeeds_iff_witness :
  exists out st', create_website site_a new_site_a admin empty_store
                  = (Ok out, st').
Proof.
  apply create_website_succeeds_iff.
  exists (Urllib.mkParse "https" "a.com" "/page" "" "" ""), "a.com".
  repeat split.
Defined.

(** X7.  A creation that fails in the icon resolution fails before
    anything is stored or written: the store is returned as it was.  What
    it raises is the [ValueError] of [urlparse]; else the [AttributeError]
    of the missing host; else the error of the write, which is the
    [ValueError] of [open] when the icon path holds a NUL and an [OSError]
    otherwise. *)
Theorem create_website_failure env website user st e st' :
  create_website env website user st = (Raise e, st') ->
  st' = st
  /\ match urlparse env (Schemas.url website) with
     | Raise e' => e = e'
     | Ok parsed =>
         match Urllib.hostname (Urllib.p_netloc parsed) with
         | None =>
             e = AttributeError "'NoneType' object has no attribute 'replace'"
         | Some _ =>
             let path := default_icon_path (Urllib.p_netloc parsed) in
             icons_writable env path = false
             /\ (contains "000" path = true ->
                 e = ValueError "embedded null byte")
             /\ (contains "000" path = false -> e = OSError path)
         end
     end.
Proof.
  pose proof (resolve_icon_outcome env (Schemas.url website) (files st)) as R.
  unfold create_website.
  destruct (urlparse env (Schemas.url website)) as [parsed|e0].
  - destruct (Urllib.hostname (Urllib.p_netloc parsed)) as [host|].
    + cbn zeta in *. destruct (icons_writable env _).
      * destruct R as (image & _ & R). rewrite R. discriminate.
      * rewrite R. intros H. injection H as <- <-.
        split; [now destruct st|]. split; [reflexivity|].
        unfold write_error. split; intros ->; [reflexivity | reflexivity].
    + rewrite R. intros H. injection H as <- <-. now destruct st.
  - rewrite R. intros H. injection H as <- <-. now destruct st.
Qed.

Lemma create_website_failure_witness :
  snd (create_website read_only_disk new_site_a admin store_2) = store_2.
Proof.
  exact (proj1 (create_website_failure read_only_disk new_site_a admin store_2
                  (OSError "./icons/a.com_default.png") _ eq_refl)).
Defined.

(** A URL whose host holds a NUL: the write is refused by [open]. *)
Example create_website_nul_host :
  fst (create_website read_only_disk
         (Schemas.mkWebsiteCreate "N" ("http://a" ++ String "000" "b/") 1 None
            [Schemas.FName; Schemas.FUrl; Schemas.FOrder])
         admin store_2)
  = Raise (ValueError "embedded null byte").
Proof. reflexivity. Qed.

(** X8.  What a successful creation returns and stores: the record
    carries the next identifier, the name, URL, rank and category of the
    request, the description fetched from the URL, the path of the
    fallback icon and the name of the category; the table gains this one
    row at its end, the icon directory this one file, and the categories
    are untouched. *)
Theorem create_website_result env website user st out st' :
  create_website env website user st = (Ok out, st') ->
  exists parsed image,
    urlparse env (Schemas.url website) = Ok parsed
    /\ generate_letter_icon env (Schemas.url website) = Ok image
    /\ let path := default_icon_path (Urllib.p_netloc parsed) in
       let row :=
         Models.mkWebsite (next_id st) (Schemas.name website)
           (Schemas.url website) (PyStr path)
           (fetch_website_description env (Schemas.url website))
           (Schemas.order website) (Schemas.category_id website) in
       out = compose (row, category_name_of st (Schemas.category_id website))
       /\ st' = mkStore (websites st ++ [row]) (categories st)
                  (next_id st + 1) ((path, image) :: files st).
Proof.
  pose proof (resolve_icon_outcome env (Schemas.url website) (files st)) as R.
  unfold create_website.
  destruct (urlparse env (Schemas.url website)) as [parsed|e0].
  - destruct (Urllib.hostname (Urllib.p_netloc parsed)) as [host|].
    + cbn zeta in R. destruct (icons_writable env _).
      * destruct R as (image & Hg & R). rewrite R.
        intros H. injection H as <- <-.
        exists parsed, image. repeat split. exact Hg.
      * rewrite R. discriminate.
    + rewrite R. discriminate.
  - rewrite R. discriminate.
Qed.

Lemma create_website_result_witness :
  exists st',
    create_website site_a new_site_a admin empty_store
    = (Ok (Schemas.mkWebsite 1 "A" (PyStr "./icons/a.com_default.png")
             "A site" 1 "https://a.com/page" None None), st')
    /\ next_id st' = 2.
Proof.
  destruct (create_website_result site_a new_site_a admin empty_store
              (Schemas.mkWebsite 1 "A" (PyStr "./icons/a.com_default.png")
                 "A site" 1 "https://a.com/page" None None)
              (snd (create_website site_a new_site_a admin empty_store))
              eq_refl)
    as (parsed & image & _ & _ & _ & Hst).
  eexists. split; [reflexivity|]. reflexivity.
Defined.

(** X9.  The icon a creation stores does not depend on the network: on
    any two networks and parsers, with the same libraries and icon
    directory, the resolution gives the same outcome and writes the same
    file. *)
Theorem resolve_icon_ignores_network env t parser url fs :
  resolve_icon (with_network env t parser) url fs = resolve_icon env url fs.
Proof.
  unfold resolve_icon. rewrite !get_icon_none. reflexivity.
Qed.

(** ** Handlers and the listing *)

Lemma read_websites_everything st :
  read_websites st None None (Some true)
  = Ok (Schemas.mkPaginated (listing st)
          (Z.of_nat (List.length (listing st)))).
Proof. reflexivity. Qed.

Lemma filter_nil_of_find_none {A} (p : A -> bool) (l : list A) :
  List.find p l = None -> filter p l = [].
Proof.
  induction l as [|x l IH]; simpl; [reflexivity|].
  destruct (p x); [discriminate | exact IH].
Qed.

Lemma category_name_in_join st w :
  In w (websites st) ->
  In (w, category_name_of st (Models.category_id w))
    (outer_join (websites st) (categories st)).
Proof.
  intros Hw. unfold outer_join. apply in_flat_map. exists w.
  split; [exact Hw|]. unfold category_name_of.
  destruct (Models.category_id w) as [k|].
  - destruct (List.find (fun c => Models.cat_id c =? k) (categories st))
      as [c|] eqn:F.
    + apply find_some in F as [Hc Hk].
      assert (Hf : In c (filter (fun c => Models.cat_id c =? k)
                           (categories st)))
        by (apply filter_In; auto).
      destruct (filter (fun c => Models.cat_id c =? k) (categories st))
        as [|c' m]; [contradiction|].
      cbn [option_map]. apply (in_map (fun c => (w, Some (Models.cat_name c)))).
      exact Hf.
    + rewrite (filter_nil_of_find_none _ _ F). now left.
  - replace (filter (fun _ => false) (categories st)) with (@nil Models.Category).
    + now left.
    + symmetry. clear. induction (categories st); simpl; auto.
Qed.

Lemma in_listing st d :
  In d (listing st)
  <-> exists w category_name,
        In (w, category_name) (outer_join (websites st) (categories st))
        /\ d = compose (w, category_name).
Proof.
  unfold listing. rewrite in_map_iff. split.
  - intros ([w cn] & <- & Hin). exists w, cn. split; [|reflexivity].
    eapply Permutation_in; [symmetry; apply order_by_perm | exact Hin].
  - intros (w & cn & Hin & ->). exists (w, cn). split; [reflexivity|].
    eapply Permutation_in; [apply order_by_perm | exact Hin].
Qed.

Lemma outer_join_fst ws cs w category_name :
  In (w, category_name) (outer_join ws cs) -> In w ws.
Proof.
  unfold outer_join. rewrite in_flat_map. intros (w' & Hw' & Hin).
  destruct (filter _ cs) as [|c m].
  - destruct Hin as [E|[]]. now injection E as <- _.
  - apply in_map_iff in Hin as (c' & E & _). now injection E as <- _.
Qed.

Lemma firstn_incl' {A} n (l : list A) x : In x (firstn n l) -> In x l.
Proof.
  revert n. induction l as [|y l IH]; intros [|n]; simpl; try tauto.
  intros [->|H]; [now left | right; eauto].
Qed.

Lemma skipn_incl' {A} n (l : list A) x : In x (skipn n l) -> In x l.
Proof.
  revert n. induction l as [|y l IH]; intros [|n]; simpl; try tauto.
  intros H. right. eauto.
Qed.

(** The rows of any answer of [read_websites] are rows of the listing. *)
Lemma read_websites_data_listed st skip limit_ all_data r d :
  read_websites st skip limit_ all_data = Ok r ->
  In d (Schemas.data r) -> In d (listing st).
Proof.
  unfold read_websites.
  destruct (match skip with Some s => s <? 0 | None => false end);
    [discriminate|].
  destruct (match limit_ with Some l => l <? 1 | None => false end);
    [discriminate|].
  destruct (match all_data with Some b => b | None => false end);
    intros H; injection H as <-; cbn [Schemas.data]; [trivial|].
  unfold listing, limit, offset. rewrite !in_map_iff.
  intros (x & Hx & Hin). exists x. split; [exact Hx|].
  eapply skipn_incl' , firstn_incl', Hin.
Qed.

(** X10.  A website that has been created is listed: the record
    [create_website] returned is one of the rows of the listing read from
    the store it left. *)
Theorem create_website_then_listed env website user st out st' :
  create_website env website user st = (Ok out, st') ->
  exists r,
    read_websites st' None None (Some true) = Ok r
    /\ In out (Schemas.data r).
Proof.
  intros H. destruct (create_website_result _ _ _ _ _ _ H)
    as (parsed & image & _ & _ & Hout & Hst).
  cbn zeta in Hout, Hst. rewrite read_websites_everything.
  eexists. split; [reflexivity|]. cbn [Schemas.data].
  apply in_listing.
  set (row := Models.mkWebsite (next_id st) (Schemas.name website)
                (Schemas.url website)
                (PyStr (default_icon_path (Urllib.p_netloc parsed)))
                (fetch_website_description env (Schemas.url website))
                (Schemas.order website) (Schemas.category_id website)) in *.
  exists row, (category_name_of st' (Models.category_id row)).
  split.
  - apply category_name_in_join. rewrite Hst. cbn [websites].
    apply in_or_app. right. now left.
  - rewrite Hout, Hst. reflexivity.
Qed.

Lemma create_website_then_listed_witness :
  exists r,
    read_websites (snd (create_website site_a new_site_a admin store_2))
      None None (Some true) = Ok r
    /\ In (Schemas.mkWebsite 3 "A" (PyStr "./icons/a.com_default.png")
             "A site" 1 "https://a.com/page" None None) (Schemas.data r).
Proof.
  exact (create_website_then_listed site_a new_site_a admin store_2 _ _
           eq_refl).
Defined.

(** X11.  A website that has been updated is listed as the update
    returned it. *)
Theorem update_website_then_listed website_id website user st out st' :
  update_website website_id website user st = (Ok out, st') ->
  exists r,
    read_websites st' None None (Some true) = Ok r
    /\ In out (Schemas.data r).
Proof.
  unfold update_website.
  destruct (db_get st website_id) as [row|] eqn:Hget; [|discriminate].
  destruct (db_get_some _ _ _ Hget) as [Hin Hid].
  destruct (updated_row_fields website row) as (Fid & _).
  set (row' := fold_left (setattr website) (model_dump_exclude_unset website)
                 row) in *.
  intros H. injection H as <- <-.
  rewrite read_websites_everything. eexists. split; [reflexivity|].
  cbn [Schemas.data]. apply in_listing.
  exists row'. eexists. split; [|reflexivity].
  apply (category_name_in_join
           (mkStore (store_row row' (websites st)) (categories st)
              (next_id st) (files st))).
  cbn [websites]. now apply (store_row_in _ row).
Qed.

Lemma update_website_then_listed_witness :
  exists r,
    read_websites (snd (update_website 2 rename_only admin store_2))
      None None (Some true) = Ok r
    /\ In (Schemas.mkWebsite 2 "Renamed" (PyStr "./icons/a.com_default.png")
             "" 28 "https://a.com/page" (Some 1) (Some "tools"))
         (Schemas.data r).
Proof.
  exact (update_website_then_listed 2 rename_only admin store_2 _ _ eq_refl).
Defined.

(** X12.  A website that has been deleted is never listed again: no
    answer of [read_websites] on the store the deletion left, in either
    mode and on any page, holds a record with its identifier. *)
Theorem delete_website_then_unlisted website_id user st st' skip limit_
  all_data r d :
  delete_website website_id user st = (Ok tt, st') ->
  read_websites st' skip limit_ all_data = Ok r ->
  In d (Schemas.data r) ->
  Schemas.w_id d <> website_id.
Proof.
  unfold delete_website.
  destruct (db_get st website_id) as [row|] eqn:Hget; [|discriminate].
  destruct (db_get_some _ _ _ Hget) as [_ Hid].
  intros H Hr Hd. injection H as <-.
  apply (read_websites_data_listed _ _ _ _ _ _ Hr) in Hd.
  apply in_listing in Hd as (w & cn & Hin & ->).
  apply outer_join_fst in Hin. cbn [websites] in Hin.
  apply filter_In in Hin as [_ Hne].
  apply negb_true_iff, Z.eqb_neq in Hne. cbn. congruence.
Qed.

Lemma delete_website_then_unlisted_witness :
  Schemas.w_id (compose (site_row 1, Some "tools")) <> 2.
Proof.
  refine (delete_website_then_unlisted 2 admin store_2 _ None None (Some true)
            _ (compose (site_row 1, Some "tools")) eq_refl
            (read_websites_everything _) _).
  now left.
Defined.

(** ** The join with the categories *)

Lemma filter_unique_category (cs : list Models.Category) (k : Z) :
  NoDup (map Models.cat_id cs) ->
  (List.length (filter (fun c => (Models.cat_id c =? k)%Z) cs) <= 1)%nat.
Proof.
  induction cs as [|c cs IH]; simpl; [lia|].
  intros Hnd. inversion Hnd as [|? ? Hnotin Hnd']; subst.
  destruct (Z.eqb_spec (Models.cat_id c) k) as [E|E]; [|now apply IH].
  simpl. replace (filter (fun c0 => Models.cat_id c0 =? k) cs) with
    (@nil Models.Category); [simpl; lia|].
  symmetry. apply filter_nil_of_find_none, find_none_iff.
  intros c' Hc'. apply Z.eqb_neq. intros E'. apply Hnotin.
  rewrite E, <- E'. now apply in_map.
Qed.

Lemma outer_join_one_each ws cs :
  NoDup (map Models.cat_id cs) -> map fst (outer_join ws cs) = ws.
Proof.
  intros Hnd. induction ws as [|w ws IH]; [reflexivity|].
  cbn [outer_join flat_map]. rewrite map_app. fold (outer_join ws cs).
  rewrite IH.
  destruct (Models.category_id w) as [k|].
  - pose proof (filter_unique_category cs k Hnd) as Hle.
    destruct (filter (fun c => Models.cat_id c =? k) cs) as [|c [|c' m]];
      [reflexivity | reflexivity | simpl in Hle; lia].
  - replace (filter (fun _ => false) cs) with (@nil Models.Category);
      [reflexivity|].
    clear. induction cs; simpl; auto.
Qed.

(** X13.  When no two categories share an identifier, the listing holds
    exactly one record per website: its identifiers are those of the
    table, up to order, and the [total] of a listing with [all_data] is the
    [total] of a paged listing, the number of rows of the table. *)
Theorem listing_one_record_per_website st skip limit_ :
  unique_categories st ->
  valid_skip skip -> valid_limit limit_ ->
  exists everything page,
    read_websites st None None (Some true) = Ok everything
    /\ read_websites st skip limit_ None = Ok page
    /\ Permutation (map Schemas.w_id (Schemas.data everything))
         (map Models.id (websites st))
    /\ Schemas.total everything = Schemas.total page
    /\ Schemas.total page = Z.of_nat (List.length (websites st)).
Proof.
  intros Hu Hs Hl.
  rewrite read_websites_everything.
  rewrite (read_websites_validated _ _ _ _ Hs Hl).
  do 2 eexists. split; [reflexivity|]. split; [reflexivity|].
  cbn [Schemas.data Schemas.total].
  assert (Hids : Permutation (map Schemas.w_id (listing st))
                   (map Models.id (websites st))).
  { unfold listing. rewrite map_map.
    rewrite (map_ext (fun x => Schemas.w_id (compose x))
               (fun x => Models.id (fst x))) by (now intros [w cn]).
    rewrite <- (outer_join_one_each (websites st) (categories st) Hu) at 2.
    rewrite map_map. apply Permutation_map. symmetry. apply order_by_perm. }
  split; [exact Hids|]. split; [|reflexivity].
  f_equal. apply Permutation_length in Hids. now rewrite !length_map in Hids.
Qed.

Lemma listing_one_record_per_website_witness :
  exists everything page,
    read_websites store_25 None None (Some true) = Ok everything
    /\ read_websites store_25 (Some 20) (Some 3) None = Ok page
    /\ Schemas.total everything = Schemas.total page.
Proof.
  destruct (listing_one_record_per_website store_25 (Some 20) (Some 3))
    as (everything & page & He & Hp & _ & Ht & _).
  - unfold unique_categories. simpl. repeat constructor. simpl. tauto.
  - simpl. lia.
  - simpl. lia.
  - exists everything, page. auto.
Defined.

(** X14.  The category name of a listed record is read through a left
    outer join: a record with a name refers to a category of the store
    with this identifier and name; a record without a name belongs to a
    website whose category is unset or refers to no category of the store;
    and such a website is listed all the same. *)
Theorem listing_category_names st :
  (forall d name,
      In d (listing st) -> Schemas.w_category_name d = Some name ->
      exists c, In c (categories st)
                /\ Schemas.w_category_id d = Some (Models.cat_id c)
                /\ Models.cat_name c = name)
  /\ (forall d c,
        In d (listing st) -> Schemas.w_category_name d = None ->
        In c (categories st) ->
        Schemas.w_category_id d <> Some (Models.cat_id c))
  /\ (forall w,
        In w (websites st) ->
        (forall c, In c (categories st) ->
                   Models.category_id w <> Some (Models.cat_id c)) ->
        In (compose (w, None)) (listing st)).
Proof.
  assert (Hrow : forall w cn,
             In (w, cn) (outer_join (websites st) (categories st)) ->
             match cn with
             | Some name =>
                 exists c, In c (categories st)
                           /\ Models.category_id w = Some (Models.cat_id c)
                           /\ Models.cat_name c = name
             | None =>
                 forall c, In c (categories st) ->
                           Models.category_id w <> Some (Models.cat_id c)
             end).
  { intros w cn Hin. unfold outer_join in Hin.
    apply in_flat_map in Hin as (w' & _ & Hin).
    destruct (filter _ (categories st)) as [|c m] eqn:F.
    - destruct Hin as [E|[]]. injection E as <- <-.
      intros c Hc Hk.
      assert (Hf : In c (filter (fun c =>
                                   match Models.category_id w' with
                                   | Some k => Models.cat_id c =? k
                                   | None => false
                                   end) (categories st))).
      { apply filter_In. split; [exact Hc|]. rewrite Hk. apply Z.eqb_refl. }
      rewrite F in Hf. contradiction.
    - apply in_map_iff in Hin as (c' & E & Hc'). injection E as <- <-.
      rewrite <- F in Hc'. apply filter_In in Hc' as [Hc' Hk].
      exists c'. split; [exact Hc'|]. split; [|reflexivity].
      destruct (Models.category_id w') as [k|]; [|discriminate].
      apply Z.eqb_eq in Hk. now rewrite Hk. }
  split; [|split].
  - intros d name Hd Hname. apply in_listing in Hd as (w & cn & Hin & ->).
    cbn in Hname. subst cn. exact (Hrow _ _ Hin).
  - intros d c Hd Hname Hc. apply in_listing in Hd as (w & cn & Hin & ->).
    cbn in Hname. subst cn. exact (Hrow _ _ Hin c Hc).
  - intros w Hw Hnone. apply in_listing. exists w, None.
    split; [|reflexivity].
    pose proof (category_name_in_join st w Hw) as Hin.
    replace (category_name_of st (Models.category_id w)) with (@None string)
      in Hin; [exact Hin|].
    symmetry. unfold category_name_of.
    destruct (Models.category_id w) as [k|]; [|reflexivity].
    destruct (List.find (fun c => Models.cat_id c =? k) (categories st))
      as [c|] eqn:F; [|reflexivity].
    apply find_some in F as [Hc Hk]. apply Z.eqb_eq in Hk.
    exfalso. apply (Hnone c Hc). now rewrite Hk.
Qed.

Lemma listing_category_names_witness :
  In (compose (site_row 1, None))
    (listing (mkStore [site_row 1] [Models.mkCategory 5 "other"] 2 [])).
Proof.
  apply (proj2 (proj2 (listing_category_names
                         (mkStore [site_row 1] [Models.mkCategory 5 "other"]
                            2 [])))).
  - now left.
  - intros c [<-|[]]. discriminate.
Defined.

(** ** Pages *)

Lemma firstn_add {A} (a b : nat) (l : list A) :
  firstn (a + b) l = (firstn a l ++ firstn b (skipn a l))%list.
Proof.
  revert l. induction a as [|a IH]; intros l; [reflexivity|].
  destruct l as [|x l]; simpl.
  - now rewrite firstn_nil.
  - now rewrite IH.
Qed.

Lemma skipn_add {A} (a b : nat) (l : list A) :
  skipn (a + b) l = skipn b (skipn a l).
Proof.
  revert l. induction a as [|a IH]; intros l; [reflexivity|].
  destruct l as [|x l]; simpl; [now rewrite skipn_nil | apply IH].
Qed.

Lemma read_websites_paged st s l :
  0 <= s -> 1 <= l ->
  read_websites st (Some s) (Some l) None
  = Ok (Schemas.mkPaginated
          (firstn (Z.to_nat l) (skipn (Z.to_nat s) (listing st)))
          (Z.of_nat (List.length (websites st)))).
Proof.
  intros Hs Hl.
  rewrite (read_websites_validated st (Some s) (Some l) None Hs Hl).
  cbn match. rewrite (or_default_skip (Some s) Hs).
  rewrite (or_default_limit (Some l) Hl). cbn [default_to].
  unfold limit, offset, listing. now rewrite skipn_map, firstn_map.
Qed.

(** On the listing of the model, consecutive pages are adjacent
    segments. *)
Lemma read_websites_pages_append st s l l' :
  0 <= s -> 1 <= l -> 1 <= l' ->
  exists first second both,
    read_websites st (Some s) (Some l) None = Ok first
    /\ read_websites st (Some (s + l)) (Some l') None = Ok second
    /\ read_websites st (Some s) (Some (l + l')) None = Ok both
    /\ Schemas.data both
       = (Schemas.data first ++ Schemas.data second)%list.
Proof.
  intros Hs Hl Hl'.
  rewrite !read_websites_paged by lia.
  do 3 eexists. do 3 (split; [reflexivity|]). cbn [Schemas.data].
  rewrite !Z2Nat.inj_add by lia.
  now rewrite firstn_add, skipn_add.
Qed.

(** Rows sorted by rank, with no rank twice, can be arranged in one way
    only. *)
Lemma sorted_perm_unique (l1 l2 : list (Models.Website * option string)) :
  NoDup (map rank l1) ->
  StronglySorted row_le l1 -> StronglySorted row_le l2 ->
  Permutation l1 l2 -> l1 = l2.
Proof.
  revert l2. induction l1 as [|x l1 IH]; intros l2 Hnd H1 H2 Hp.
  - now apply Permutation_nil in Hp.
  - destruct l2 as [|y l2].
    { symmetry in Hp. now apply Permutation_nil in Hp. }
    inversion Hnd as [|? ? Hnotin Hnd']; subst.
    apply StronglySorted_inv in H1 as [H1 Hx].
    apply StronglySorted_inv in H2 as [H2 Hy].
    rewrite Forall_forall in Hx, Hy.
    assert (Hxy : x = y).
    { assert (Hyin : In y (x :: l1))
        by (eapply Permutation_in; [symmetry; exact Hp | now left]).
      assert (Hxin : In x (y :: l2))
        by (eapply Permutation_in; [exact Hp | now left]).
      destruct Hyin as [E|Hyin]; [exact E|].
      destruct Hxin as [E|Hxin]; [now symmetry|].
      exfalso. apply Hnotin.
      pose proof (Hx y Hyin) as Hle. pose proof (Hy x Hxin) as Hge.
      unfold row_le in Hle, Hge.
      replace (rank x) with (rank y) by (unfold rank; lia).
      now apply in_map. }
    subst y. f_equal. apply IH; try assumption.
    eapply Permutation_cons_inv, Hp.
Qed.

(** X15.  When no two joined rows have the same rank, the order of the
    listing is forced: any arrangement of the joined rows that is sorted
    by rank is the listing, whichever way the database sorts.  Consecutive
    pages then join up: the page of [l] rows after [s] followed by the
    page of [l'] rows after [s + l] is the page of [l + l'] rows after
    [s]. *)
Theorem read_websites_pages_join st s l l' :
  distinct_ranks st ->
  0 <= s -> 1 <= l -> 1 <= l' ->
  (forall rows,
      Permutation rows (outer_join (websites st) (categories st)) ->
      StronglySorted row_le rows ->
      map compose rows = listing st)
  /\ exists first second both,
      read_websites st (Some s) (Some l) None = Ok first
      /\ read_websites st (Some (s + l)) (Some l') None = Ok second
      /\ read_websites st (Some s) (Some (l + l')) None = Ok both
      /\ Schemas.data both
         = (Schemas.data first ++ Schemas.data second)%list.
Proof.
  intros Hd Hs Hl Hl'. split.
  - intros rows Hp Hsorted. unfold listing. f_equal.
    apply sorted_perm_unique.
    + unfold distinct_ranks in Hd.
      eapply Permutation_NoDup; [|exact Hd].
      apply Permutation_map. now symmetry.
    + exact Hsorted.
    + apply order_by_sorted.
    + etransitivity; [exact Hp | apply order_by_perm].
  - now apply read_websites_pages_append.
Qed.

Lemma read_websites_pages_join_witness :
  exists first second both,
    read_websites store_2 (Some 0) (Some 1) None = Ok first
    /\ read_websites store_2 (Some 1) (Some 1) None = Ok second
    /\ read_websites store_2 (Some 0) (Some 2) None = Ok both
    /\ Schemas.data both
       = (Schemas.data first ++ Schemas.data second)%list.
Proof.
  refine (proj2 (read_websites_pages_join store_2 0 1 1 _ _ _ _)); try lia.
  unfold distinct_ranks. simpl.
  repeat constructor; simpl; intuition discriminate.
Defined.

(** X16.  The size of a page: of the rows of the listing that come after
    the first [skip], as many as [limit] allows.  A page that starts at or
    after the end of the listing is empty, and its [total] is still the
    number of rows of the table. *)
Theorem read_websites_page_size st skip limit_ :
  valid_skip skip -> valid_limit limit_ ->
  exists page,
    read_websites st skip limit_ None = Ok page
    /\ List.length (Schemas.data page)
       = Nat.min (Z.to_nat (default_to limit_ 10))
           (List.length (listing st) - Z.to_nat (default_to skip 0))
    /\ (Z.of_nat (List.length (listing st)) <= default_to skip 0 ->
        Schemas.data page = []
        /\ Schemas.total page = Z.of_nat (List.length (websites st))).
Proof.
  intros Hs Hl.
  rewrite (read_websites_validated _ _ _ _ Hs Hl). cbn match.
  rewrite or_default_skip, or_default_limit by assumption.
  eexists. split; [reflexivity|]. cbn [Schemas.data Schemas.total].
  unfold limit, offset. fold (listing st).
  assert (Hlen : List.length
                   (map compose
                      (firstn (Z.to_nat (default_to limit_ 10))
                         (skipn (Z.to_nat (default_to skip 0))
                            (order_by
                               (outer_join (websites st) (categories st))))))
                 = Nat.min (Z.to_nat (default_to limit_ 10))
                     (List.length (listing st)
                      - Z.to_nat (default_to skip 0))).
  { rewrite length_map, length_firstn, length_skipn.
    unfold listing. now rewrite length_map. }
  split; [exact Hlen|].
  intros Hend. split; [|reflexivity].
  apply length_zero_iff_nil. rewrite Hlen. lia.
Qed.

Lemma read_websites_page_size_witness :
  exists page,
    read_websites store_25 (Some 20) (Some 10) None = Ok page
    /\ List.length (Schemas.data page) = 5%nat.
Proof.
  destruct (read_websites_page_size store_25 (Some 20) (Some 10))
    as (page & Hp & Hlen & _).
  - simpl. lia.
  - simpl. lia.
  - exists page. split; [exact Hp|]. rewrite Hlen. reflexivity.
Defined.

(** ** The icon file *)












(** ** Creating, then deleting *)

Lemma find_app_none {A} (p : A -> bool) (l l' : list A) :
  List.find p l = None -> List.find p (l ++ l') = List.find p l'.
Proof.
  induction l as [|x l IH]; simpl; [reflexivity|].
  destruct (p x); [discriminate | exact IH].
Qed.

Lemma filter_keeps_all {A} (p : A -> bool) (l : list A) :
  (forall x, In x l -> p x = true) -> filter p l = l.
Proof.
  induction l as [|x l IH]; simpl; intros H; [reflexivity|].
  rewrite (H x (or_introl eq_refl)). f_equal. apply IH.
  intros y Hy. apply H. now right.
Qed.

(** X19.  Deleting a website right after creating it gives back the
    table and the categories as they were before the creation, provided
    the identifier the store handed out was fresh; the icon file written
    for the website stays in the icon directory. *)
Theorem create_then_delete env website user st out st1 :
  (forall w, In w (websites st) -> Models.id w <> next_id st) ->
  create_website env website user st = (Ok out, st1) ->
  exists st2 path image,
    delete_website (Schemas.w_id out) user st1 = (Ok tt, st2)
    /\ websites st2 = websites st
    /\ categories st2 = categories st
    /\ Schemas.w_icon_url out = PyStr path
    /\ files st2 = (path, image) :: files st.
Proof.
  intros Hfresh H.
  destruct (create_website_result _ _ _ _ _ _ H)
    as (parsed & image & _ & _ & Hout & Hst).
  cbn zeta in Hout, Hst. subst out st1.
  set (row := Models.mkWebsite _ _ _ _ _ _ _).
  unfold delete_website, db_get. cbn [websites compose Schemas.w_id].
  change (Models.id row) with (next_id st).
  rewrite find_app_none.
  - cbn [List.find]. change (Models.id row) with (next_id st).
    rewrite Z.eqb_refl. do 3 eexists. split; [reflexivity|].
    cbn [websites categories files Schemas.w_icon_url].
    split; [|repeat split].
    rewrite filter_app. cbn [filter].
    change (Models.id row) with (next_id st). rewrite Z.eqb_refl. cbn [negb].
    rewrite app_nil_r. apply filter_keeps_all.
    intros w Hw. apply negb_true_iff, Z.eqb_neq. now apply Hfresh.
  - apply find_none_iff. intros w Hw. apply Z.eqb_neq. now apply Hfresh.
Qed.

Lemma create_then_delete_witness :
  exists st2,
    delete_website 3 admin
      (snd (create_website site_a new_site_a admin store_2))
    = (Ok tt, st2)
    /\ websites st2 = websites store_2
    /\ files st2 <> files store_2.
Proof.
  destruct (create_then_delete site_a new_site_a admin store_2
              (Schemas.mkWebsite 3 "A" (PyStr "./icons/a.com_default.png")
                 "A site" 1 "https://a.com/page" None None)
              (snd (create_website site_a new_site_a admin store_2)))
    as (st2 & path & image & Hd & Hw & _ & _ & Hf).
  - intros w [<-|[<-|[]]]; discriminate.
  - reflexivity.
  - exists st2. split; [exact Hd|]. split; [exact Hw|].
    rewrite Hf. discriminate.
Defined.

(** ** The description *)

Lemma lstrip_by_fixed (p : ascii -> bool) (s : string) :
  match s with String c _ => p c = false | EmptyString => True end ->
  lstrip_by p s = s.
Proof. destruct s as [|c s]; simpl; [reflexivity|]. now intros ->. Qed.

Lemma lstrip_by_head (p : ascii -> bool) (s : string) :
  match lstrip_by p s with
  | String c _ => p c = false
  | EmptyString => True
  end.
Proof.
  induction s as [|c s IH]; simpl; [exact I|].
  destruct (p c) eqn:E; [exact IH | exact E].
Qed.

Lemma rstrip_by_head (p : ascii -> bool) (s : string) :
  match s with String c _ => p c = false | EmptyString => True end ->
  match rstrip_by p s with
  | String c _ => p c = false
  | EmptyString => True
  end.
Proof.
  destruct s as [|c s]; simpl; [trivial|]. intros Hc.
  destruct (rstrip_by p s); [now rewrite Hc | exact Hc].
Qed.

Lemma rstrip_by_cons (p : ascii -> bool) (c : ascii) (s : string) :
  rstrip_by p (String c s)
  = match rstrip_by p s with
    | EmptyString => if p c then EmptyString else String c EmptyString
    | r => String c r
    end.
Proof. reflexivity. Qed.

Lemma rstrip_by_twice (p : ascii -> bool) (s : string) :
  rstrip_by p (rstrip_by p s) = rstrip_by p s.
Proof.
  induction s as [|c s IH]; [reflexivity|].
  rewrite rstrip_by_cons.
  destruct (rstrip_by p s) as [|d r] eqn:E.
  - destruct (p c) eqn:Ec; [reflexivity|].
    rewrite rstrip_by_cons. cbn [rstrip_by]. now rewrite Ec.
  - rewrite rstrip_by_cons, IH. reflexivity.
Qed.

Lemma strip_twice (s : string) : strip (strip s) = strip s.
Proof.
  unfold strip.
  rewrite (lstrip_by_fixed is_space (rstrip_by is_space _)).
  - apply rstrip_by_twice.
  - apply rstrip_by_head, lstrip_by_head.
Qed.

(** X20.  The description [fetch_website_description] returns never
    starts or ends with white space: stripping it again changes
    nothing. *)
Theorem fetch_website_description_stripped env url :
  strip (fetch_website_description env url)
  = fetch_website_description env url.
Proof.
  unfold fetch_website_description, try_except.
  destruct (Httpx.get _ _ _ _) as [response|]; [|reflexivity].
  cbn [bind]. destruct (Httpx.raise_for_status response); [|reflexivity].
  cbn [bind]. destruct (html_parser env _) as [soup|]; [|reflexivity].
  cbn [bind]. destruct (Bs4.find soup _ _) as [tag|]; [|reflexivity].
  destruct (Bs4.get tag "content") as [[content|tokens]|];
    [apply strip_twice | reflexivity | reflexivity].
Qed.
